(** * gprime.proxy.proxybase: the read-only filtering proxy

    A shallow embedding of [ProxyCursor] and [ProxyDbBase] of
    [gprime/proxy/proxybase.py], and the properties of the proxy's read
    contract: filtered lookup, enumeration, composition of proxies, the
    attribute fallback of [__getattr__] and the cursor adapter; and the
    tables and the display of the Traditional-Chinese date handler of
    [gramps/gen/datehandler/_date_zh_TW.py]. *)

From Stdlib Require Import NArith Strings.Byte Strings.Ascii Lia.
From stdpp Require Import base option list strings gmap.


(** ** Python values and exceptions *)

Module Py.

(** The exceptions the modelled code can raise. *)
Inductive exn : Set :=
| AttributeError
| TypeError
| IndexError
| UnicodeDecodeError
| UnicodeEncodeError.

(** A call either returns a value or raises. *)
Inductive result (A : Type) : Type :=
| Ok (a : A)
| Raise (e : exn).
Arguments Ok {A} a.
Arguments Raise {A} e.

Definition bind {A B : Type} (r : result A) (k : A → result B) : result B :=
  match r with
  | Ok a => k a
  | Raise e => Raise e
  end.

#[export] Instance result_bind : MBind result := λ A B k r, bind r k.
#[export] Instance result_ret : MRet result := @Ok.

(** A [str] is a sequence of code points, a [bytes] a sequence of bytes. *)
Definition str : Type := list N.
Definition bytes : Type := list byte.

(** A handle as it travels through the code: the entities carry [str]
    handles, the lower layers of the store hand out [bytes]. *)
Inductive hval : Type :=
| HStr (s : str)
| HBytes (b : bytes).

(** Truth value of a handle, as [filter(None, ...)] and [if] test it. *)
Definition truthy (h : hval) : bool :=
  match h with
  | HStr [] | HBytes [] => false
  | _ => true
  end.

(** The code points of a literal, for writing examples. *)
Fixpoint lit (s : string) : str :=
  match s with
  | EmptyString => []
  | String c r => Ascii.N_of_ascii c :: lit r
  end.

End Py.
Export Py.

(** ** The UTF-8 codec *)

Module Utf8.
Local Open Scope N_scope.

Definition byte_of (n : N) : byte :=
  match Byte.of_N (n mod 256) with
  | Some b => b
  | None => x00
  end.

(** Encoding of one code point; surrogates and values past U+10FFFF have
    no encoding. *)
Definition encode_cp (c : N) : option bytes :=
  if c <? 0x80 then Some [byte_of c]
  else if c <? 0x800 then
    Some [byte_of (0xC0 + c / 64); byte_of (0x80 + c mod 64)]
  else if c <? 0x10000 then
    if (0xD800 <=? c) && (c <=? 0xDFFF) then None
    else Some [byte_of (0xE0 + c / 4096);
               byte_of (0x80 + (c / 64) mod 64);
               byte_of (0x80 + c mod 64)]
  else if c <? 0x110000 then
    Some [byte_of (0xF0 + c / 262144);
          byte_of (0x80 + (c / 4096) mod 64);
          byte_of (0x80 + (c / 64) mod 64);
          byte_of (0x80 + c mod 64)]
  else None.

Fixpoint encode (s : str) : option bytes :=
  match s with
  | [] => Some []
  | c :: r =>
    match encode_cp c, encode r with
    | Some b, Some br => Some (b ++ br)
    | _, _ => None
    end
  end.

(** A continuation byte is [10xxxxxx]. *)
Definition cont (b : byte) : option N :=
  let n := Byte.to_N b in
  if (0x80 <=? n) && (n <? 0xC0) then Some (n - 0x80) else None.

(** Strict decoding: overlong forms, surrogates and values past U+10FFFF
    are refused. *)
Fixpoint decode (bs : bytes) : option str :=
  match bs with
  | [] => Some []
  | b0 :: r0 =>
    let n0 := Byte.to_N b0 in
    if n0 <? 0x80 then cons n0 <$> decode r0
    else if n0 <? 0xC2 then None
    else if n0 <? 0xE0 then
      match r0 with
      | b1 :: r1 =>
        match cont b1 with
        | Some c1 => cons ((n0 - 0xC0) * 64 + c1) <$> decode r1
        | None => None
        end
      | _ => None
      end
    else if n0 <? 0xF0 then
      match r0 with
      | b1 :: b2 :: r2 =>
        match cont b1, cont b2 with
        | Some c1, Some c2 =>
          let c := (n0 - 0xE0) * 4096 + c1 * 64 + c2 in
          if (c <? 0x800) || ((0xD800 <=? c) && (c <=? 0xDFFF)) then None
          else cons c <$> decode r2
        | _, _ => None
        end
      | _ => None
      end
    else if n0 <? 0xF5 then
      match r0 with
      | b1 :: b2 :: b3 :: r3 =>
        match cont b1, cont b2, cont b3 with
        | Some c1, Some c2, Some c3 =>
          let c := (n0 - 0xF0) * 262144 + c1 * 4096 + c2 * 64 + c3 in
          if (c <? 0x10000) || (0x110000 <=? c) then None
          else cons c <$> decode r3
        | _, _, _ => None
        end
      | _ => None
      end
    else None
  end.

End Utf8.

(** [str(x, 'utf-8')]: decodes a [bytes]; a [str] argument is a
    [TypeError] (decoding str is not supported). *)
Definition py_str (x : hval) : result hval :=
  match x with
  | HStr _ => Raise TypeError
  | HBytes b =>
    match Utf8.decode b with
    | Some s => Ok (HStr s)
    | None => Raise UnicodeDecodeError
    end
  end.

(** [bytes(x, 'utf-8')]: encodes a [str]; a [bytes] argument is a
    [TypeError] (encoding without a string argument). *)
Definition py_bytes (x : hval) : result hval :=
  match x with
  | HBytes _ => Raise TypeError
  | HStr s =>
    match Utf8.encode s with
    | Some b => Ok (HBytes b)
    | None => Raise UnicodeEncodeError
    end
  end.

#[export] Instance byte_eq_dec : EqDecision byte := Byte.byte_eq_dec.
#[export] Instance byte_countable : Countable byte :=
  inj_countable Byte.to_N Byte.of_N Byte.of_to_N.

#[export] Instance hval_eq_dec : EqDecision hval.
Proof. solve_decision. Defined.

#[export] Instance hval_countable : Countable hval :=
  inj_countable'
    (λ h, match h with HStr s => inl s | HBytes b => inr b end)
    (λ x, match x with inl s => HStr s | inr b => HBytes b end)
    (λ h, match h with HStr _ | HBytes _ => eq_refl end).

(** ** The data model *)

(** The entity kinds of the store. *)
Inductive Kind : Set :=
| Person | Family | Event | Place | Source
| Citation | Repository | Media | Note | Tag.

#[export] Instance Kind_eq_dec : EqDecision Kind.
Proof. solve_decision. Defined.

(** The word a kind has in the method names: [get_person_from_handle]. *)
Definition kind_name (K : Kind) : string :=
  match K with
  | Person => "person" | Family => "family" | Event => "event"
  | Place => "place" | Source => "source" | Citation => "citation"
  | Repository => "repository" | Media => "media" | Note => "note"
  | Tag => "tag"
  end.

Definition all_kinds : list Kind :=
  [Person; Family; Event; Place; Source; Citation; Repository; Media; Note; Tag].

(** The serialized form [to_struct()] returns. *)
Definition struct : Type := list (string * str).

(** An entity, as far as the proxy looks at it: [obj.handle] and
    [obj.to_struct()]. *)
Record Entity : Type := {
  handle : hval;
  to_struct : struct
}.

(** [order_by] of [iter_people] and friends: a list of (field, direction)
    pairs, or [None]. *)
Definition order : Type := option (list (string * string)).

(** [if order_by:] is false for [None] and for the empty list. *)
Definition order_truthy (o : order) : bool :=
  match o with
  | Some (_ :: _) => true
  | _ => false
  end.

(** A plain attribute value: a boolean, or some object the store owns. *)
Inductive value : Set :=
| VBool (b : bool)
| VObject (n : N).

(** The base store: a concrete database behind the read interface the proxy
    calls. Its implementation is outside [proxybase.py]; the proxy sees these
    operations only. *)
Record Store : Type := {
  (** [is_open()] *)
  st_is_open : bool;
  (** [get_<kind>_from_handle(handle)] *)
  st_from_handle : Kind → hval → option Entity;
  (** [get_<kind>_from_gid(val)]; [get_tag_from_name(val)] for [Tag] *)
  st_from_gid : Kind → str → option Entity;
  (** [iter_<kind>_handles()] *)
  st_iter_handles : Kind → list hval;
  (** [iter_<kinds>(order_by)] *)
  st_iter_objects : Kind → order → list Entity;
  (** [get_<kind>_handles(sort_handles)] *)
  st_get_handles : Kind → bool → list hval;
  (** [find_initial_person()] *)
  st_find_initial_person : option Entity;
  (** every other attribute, by name: bookmarks, name formats, ... *)
  st_attrs : string → option value
}.

(** What an attribute lookup can give back. *)
Inductive pyattr : Type :=
| PyValue (v : value)                (* a plain value *)
| PyLookup (s : Store) (K : Kind)    (* [s.get_<kind>_from_handle], bound *)
| PyMember (name : string)           (* found on the proxy class or instance *)
| PyProxyMap (K : Kind).             (* a [ProxyMap] made by [__init__] *)

(** The state of a [ProxyDbBase] instance besides [db] and [basedb]: the
    per-kind predicates [include_<kind>] ([None] by default, overridden by
    the concrete proxy class) and the instance [__dict__]. *)
Record ProxyObj : Type := {
  include : Kind → option (hval → bool);
  dict : gmap string pyattr
}.

(** A database reference: [None], a base store, or a proxy with its [db]
    and [basedb] fields. *)
Inductive Db : Type :=
| DbNone
| DbBase (s : Store)
| DbProxy (self : ProxyObj) (db basedb : Db).

(** ** The filters *)

(** [ProxyDbBase.gfilter] *)
Definition gfilter (predicate : option (hval → bool)) (obj : option Entity)
  : option Entity :=
  match predicate, obj with
  | Some p, Some o => if p (handle o) then Some o else None
  | _, _ => obj
  end.

(** The builtin [filter(function, iterable)] over handles: with [None] for
    the function, the items that are true are kept. *)
Definition py_filter (function : option (hval → bool)) (iterable : list hval)
  : list hval :=
  match function with
  | Some p => List.filter p iterable
  | None => List.filter truthy iterable
  end.

(** The selection [__iter_object] makes: [(selector is None) or
    selector(obj.handle)]. *)
Definition selected (selector : option (hval → bool)) (obj : Entity) : bool :=
  match selector with
  | None => true
  | Some p => p (handle obj)
  end.

(** ** Per-kind operations *)

(** [is_open] *)
Fixpoint is_open (d : Db) : result bool :=
  match d with
  | DbNone => Raise AttributeError
  | DbBase s => Ok (st_is_open s)
  | DbProxy _ db _ => is_open db
  end.

(** [get_person_from_handle] ... [get_tag_from_handle] *)
Fixpoint get_from_handle (d : Db) (K : Kind) (h : hval)
  : result (option Entity) :=
  match d with
  | DbNone => Raise AttributeError
  | DbBase s => Ok (st_from_handle s K h)
  | DbProxy self db _ =>
    obj ← get_from_handle db K h;
    Ok (gfilter (include self K) obj)
  end.

(** [get_person_from_gid] ... [get_note_from_gid], [get_tag_from_name] *)
Fixpoint get_from_gid (d : Db) (K : Kind) (val : str)
  : result (option Entity) :=
  match d with
  | DbNone => Raise AttributeError
  | DbBase s => Ok (st_from_gid s K val)
  | DbProxy self db _ =>
    obj ← get_from_gid db K val;
    Ok (gfilter (include self K) obj)
  end.

(** [iter_person_handles] ... [iter_tag_handles] *)
Fixpoint iter_handles (d : Db) (K : Kind) : result (list hval) :=
  match d with
  | DbNone => Raise AttributeError
  | DbBase s => Ok (st_iter_handles s K)
  | DbProxy self db _ =>
    hs ← iter_handles db K;
    Ok (py_filter (include self K) hs)
  end.

(** The kinds whose [get_<kind>_handles] has a [sort_handles] parameter;
    [get_event_handles], [get_repository_handles] and [get_note_handles]
    take no argument. *)
Definition takes_sort_handles (K : Kind) : bool :=
  match K with
  | Event | Repository | Note => false
  | _ => true
  end.

(** The kinds whose handle list is read from the base store. *)
Definition base_sorted (K : Kind) : bool :=
  match K with
  | Person | Family => true
  | _ => false
  end.

(** [[hdl for hdl in all if str(hdl, 'utf-8') in proxied]] *)
Fixpoint decoded_in (proxied : gset hval) (all : list hval)
  : result (list hval) :=
  match all with
  | [] => Ok []
  | hdl :: rest =>
    s ← py_str hdl;
    tl ← decoded_in proxied rest;
    Ok (if decide (s ∈ proxied) then hdl :: tl else tl)
  end.

(** [get_person_handles] ... [get_tag_handles]. [sort_handles] is [None]
    when the caller passes no argument. *)
Fixpoint get_handles (d : Db) (K : Kind) (sort_handles : option bool)
  : result (list hval) :=
  match d with
  | DbNone => Raise AttributeError
  | DbBase s => Ok (st_get_handles s K (default false sort_handles))
  | DbProxy self db basedb =>
    if negb (takes_sort_handles K) && bool_decide (is_Some sort_handles)
    then Raise TypeError
    else
      match db with
      | DbNone => Ok []
      | _ =>
        opened ← is_open db;
        if opened : bool then
          if base_sorted K then
            proxied ← iter_handles d K;
            all ← get_handles basedb K (Some (default false sort_handles));
            decoded_in (list_to_set proxied) all
          else iter_handles d K
        else Ok []
      end
  end.

(** [has_person_handle] ... [has_tag_handle], of the proxy [self] that
    wraps [db]. *)
Definition has_handle (self : ProxyObj) (db : Db) (K : Kind) (h : hval)
  : result bool :=
  obj ← get_from_handle db K h;
  Ok (bool_decide (is_Some (gfilter (include self K) obj))).

(** [find_initial_person] *)
Fixpoint find_initial_person (d : Db) : result (option Entity) :=
  match d with
  | DbNone => Raise AttributeError
  | DbBase s => Ok (st_find_initial_person s)
  | DbProxy self db basedb =>
    person ← find_initial_person basedb;
    match person with
    | Some p =>
      visible ← has_handle self db Person (handle p);
      Ok (if visible : bool then Some p else None)
    | None => Ok None
    end
  end.

(** [get_raw_person_data] ... [get_raw_tag_data] of the proxy [p]:
    [to_struct] of the filtered lookup; on [None] the attribute access
    raises. *)
Definition get_raw_data (p : Db) (K : Kind) (h : hval) : result struct :=
  obj ← get_from_handle p K h;
  match obj with
  | Some o => Ok (to_struct o)
  | None => Raise AttributeError
  end.

Section IterObjects.

(** [sort_objects] of [gprime.db.base], which [__iter_object] calls with
    the materialized list, the order and the proxy. *)
Variable sort_objects : list Entity → order → Db → list Entity.

(** [iter_people] ... [iter_tags], through [__iter_object]: the wrapped
    method is called without argument, and only the outer result is
    sorted. *)
Fixpoint iter_objects (d : Db) (K : Kind) (order_by : order)
  : result (list Entity) :=
  match d with
  | DbNone => Raise AttributeError
  | DbBase s => Ok (st_iter_objects s K order_by)
  | DbProxy self db _ =>
    objs ← iter_objects db K None;
    let retval := List.filter (selected (include self K)) objs in
    Ok (if order_truthy order_by then sort_objects retval order_by d
        else retval)
  end.

End IterObjects.

(** ** Attribute lookup *)

(** [name.split('_')] *)
Fixpoint split_underscore (name : string) : list string :=
  match name with
  | EmptyString => [EmptyString]
  | String c rest =>
    if Ascii.eqb c "_"%char then EmptyString :: split_underscore rest
    else
      match split_underscore rest with
      | w :: ws => String c w :: ws
      | [] => [String c EmptyString]
      end
  end.

(** [name.startswith("__")] *)
Definition startswith_dunder (name : string) : bool :=
  match name with
  | String "_"%char (String "_"%char _) => true
  | _ => false
  end.

(** [sname[:2] == ['get', 'unfiltered']] for [sname = name.split('_')] *)
Definition is_get_unfiltered (name : string) : bool :=
  bool_decide (take 2 (split_underscore name) = ["get"; "unfiltered"]).

(** The names the class body of [ProxyDbBase] binds. *)
Definition ProxyDbBase_dict : list string :=
  ["__module__"; "__doc__"; "__init__"; "get_table_func"; "is_open";
   "get_researcher"; "include_something";
   "include_person"; "include_family"; "include_event"; "include_source";
   "include_citation"; "include_place"; "include_media";
   "include_repository"; "include_note"; "include_tag";
   "get_person_cursor"; "get_family_cursor"; "get_event_cursor";
   "get_source_cursor"; "get_citation_cursor"; "get_place_cursor";
   "get_media_cursor"; "get_repository_cursor"; "get_note_cursor";
   "get_tag_cursor";
   "get_person_handles"; "get_family_handles"; "get_event_handles";
   "get_source_handles"; "get_citation_handles"; "get_place_handles";
   "get_media_handles"; "get_repository_handles"; "get_note_handles";
   "get_tag_handles"; "get_default_person"; "get_default_handle";
   "iter_person_handles"; "iter_family_handles"; "iter_event_handles";
   "iter_source_handles"; "iter_citation_handles"; "iter_place_handles";
   "iter_media_handles"; "iter_repository_handles"; "iter_note_handles";
   "iter_tag_handles"; "_ProxyDbBase__iter_object";
   "iter_people"; "iter_families"; "iter_events"; "iter_places";
   "iter_sources"; "iter_citations"; "iter_media"; "iter_repositories";
   "iter_notes"; "iter_tags"; "gfilter"; "__getattr__";
   "get_person_from_handle"; "get_family_from_handle";
   "get_event_from_handle"; "get_source_from_handle";
   "get_citation_from_handle"; "get_place_from_handle";
   "get_media_from_handle"; "get_repository_from_handle";
   "get_note_from_handle"; "get_tag_from_handle";
   "get_person_from_gid"; "get_family_from_gid"; "get_event_from_gid";
   "get_place_from_gid"; "get_source_from_gid"; "get_citation_from_gid";
   "get_media_from_gid"; "get_repository_from_gid"; "get_note_from_gid";
   "get_tag_from_name"; "get_name_group_mapping"; "has_name_group_key";
   "get_name_group_keys";
   "get_number_of_people"; "get_number_of_families";
   "get_number_of_events"; "get_number_of_places";
   "get_number_of_sources"; "get_number_of_citations";
   "get_number_of_media"; "get_number_of_repositories";
   "get_number_of_notes"; "get_number_of_tags"; "get_save_path";
   "get_event_attribute_types"; "get_event_types";
   "get_person_event_types"; "get_person_attribute_types";
   "get_family_attribute_types"; "get_family_event_types";
   "get_media_attribute_types"; "get_family_relation_types";
   "get_child_reference_types"; "get_event_roles"; "get_name_types";
   "get_origin_types"; "get_repository_types"; "get_note_types";
   "get_source_attribute_types"; "get_source_media_types"; "get_url_types";
   "get_raw_person_data"; "get_raw_family_data"; "get_raw_media_data";
   "get_raw_place_data"; "get_raw_event_data"; "get_raw_source_data";
   "get_raw_citation_data"; "get_raw_repository_data";
   "get_raw_note_data"; "get_raw_tag_data";
   "has_person_handle"; "has_family_handle"; "has_event_handle";
   "has_source_handle"; "has_citation_handle"; "has_place_handle";
   "has_media_handle"; "has_repository_handle"; "has_note_handle";
   "has_tag_handle"; "get_mediapath"; "get_gids"; "has_gid";
   "get_bookmarks"; "get_family_bookmarks"; "get_event_bookmarks";
   "get_place_bookmarks"; "get_source_bookmarks";
   "get_citation_bookmarks"; "get_media_bookmarks"; "get_repo_bookmarks";
   "get_note_bookmarks"; "close"; "find_initial_person"; "get_dbid"].

(** The name of the base store's lookup by handle for a kind word. *)
Definition from_handle_name (word : string) : string :=
  "get_" +:+ word +:+ "_from_handle".

(** The kind a lookup-by-handle name belongs to. *)
Definition kind_of_from_handle (name : string) : option Kind :=
  List.find (λ K, bool_decide (from_handle_name (kind_name K) = name))
            all_kinds.

(** [getattr] on a base store: its ten lookups by handle, and whatever
    else it holds. *)
Definition base_getattr (s : Store) (name : string) : result pyattr :=
  match kind_of_from_handle name with
  | Some K => Ok (PyLookup s K)
  | None =>
    match st_attrs s name with
    | Some v => Ok (PyValue v)
    | None => Raise AttributeError
    end
  end.

(** Calling what an attribute lookup returned with a handle; only the
    lookups by handle are callable this way. *)
Definition call_with_handle (f : pyattr) (h : hval)
  : result (option Entity) :=
  match f with
  | PyLookup s K => Ok (st_from_handle s K h)
  | _ => Raise TypeError
  end.

(** The type of an entry of a class [__dict__], as [type(...) is
    types.FunctionType] tells them apart. *)
Inductive pytype : Set := FunctionType | OtherType.

Section Getattr.

(** [DbWriteBase.__dict__]: for each name the class body of the writable
    store contract binds, the type of what it is bound to. *)
Variable DbWriteBase_dict : string → option pytype.

(** The names found on the other classes of the instance's method
    resolution order: the concrete proxy class, [DbReadBase], [object]. *)
Variable inherited : string → bool.

(** The test of [__getattr__] for a write method. *)
Definition is_write_method (name : string) : bool :=
  match DbWriteBase_dict name with
  | Some ty =>
    negb (startswith_dunder name) &&
    match ty with FunctionType => true | OtherType => false end
  | None => false
  end.

(** The ordinary lookup, before [__getattr__] is tried: the instance
    [__dict__] (with the fields [db] and [basedb]), then [ProxyDbBase]
    and the other classes. *)
Definition defined (self : ProxyObj) (name : string) : option pyattr :=
  match dict self !! name with
  | Some v => Some v
  | None =>
    if bool_decide (name ∈ ["db"; "basedb"])
       || bool_decide (name ∈ ProxyDbBase_dict)
       || inherited name
    then Some (PyMember name)
    else None
  end.

(** [setattr(self, name, attr)] *)
Definition setattr (self : ProxyObj) (name : string) (attr : pyattr)
  : ProxyObj :=
  {| include := include self; dict := <[name := attr]> (dict self) |}.

(** [getattr(d, name)]: the value or the exception, and the object after
    the lookup. On a proxy the ordinary lookup comes first and
    [ProxyDbBase.__getattr__] handles what it does not find. *)
Fixpoint getattr (d : Db) (name : string) : result pyattr * Db :=
  match d with
  | DbNone => (Raise AttributeError, d)
  | DbBase s => (base_getattr s name, d)
  | DbProxy self db basedb =>
    match defined self name with
    | Some v => (Ok v, d)
    | None =>
      if bool_decide (name = "readonly") then (Ok (PyValue (VBool true)), d)
      else
        let sname := split_underscore name in
        if is_get_unfiltered name then
          match sname !! 2%nat with
          | None => (Raise IndexError, d)
          | Some word =>
            match getattr basedb (from_handle_name word) with
            | (Ok attr, basedb') =>
              (Ok attr, DbProxy (setattr self name attr) db basedb')
            | (Raise e, basedb') => (Raise e, DbProxy self db basedb')
            end
          end
        else if is_write_method name then (Raise AttributeError, d)
        else
          match getattr db name with
          | (r, db') => (r, DbProxy self db' basedb)
          end
    end
  end.

(** ** Construction *)

(** The loop of [__init__] that walks to the store under the proxies. *)
Fixpoint innermost (d : Db) : Db :=
  match d with
  | DbProxy _ db _ => innermost db
  | _ => d
  end.

(** The attributes [__init__] copies from [db]. *)
Definition copied_attrs : list string :=
  ["name_formats"; "bookmarks"; "family_bookmarks"; "event_bookmarks";
   "place_bookmarks"; "source_bookmarks"; "citation_bookmarks";
   "repo_bookmarks"; "media_bookmarks"; "note_bookmarks"].

Fixpoint copy_attrs (db : Db) (names : list string)
    (dict : gmap string pyattr) : result (gmap string pyattr) :=
  match names with
  | [] => Ok dict
  | name :: rest =>
    v ← (getattr db name).1;
    copy_attrs db rest (<[name := v]> dict)
  end.

(** The names of the [ProxyMap]s and of the table registry. *)
Definition map_attrs : list string :=
  ["_ProxyDbBase__tables"; "note_map"; "media_map"; "repository_map";
   "source_map"; "place_map"; "event_map"; "family_map"; "person_map"].

(** The [ProxyMap]s and the table registry [__init__] adds. *)
Definition add_maps (dict : gmap string pyattr) : gmap string pyattr :=
  <["_ProxyDbBase__tables" := PyMember "_ProxyDbBase__tables"]>
  (<["note_map" := PyProxyMap Note]>
  (<["media_map" := PyProxyMap Media]>
  (<["repository_map" := PyProxyMap Repository]>
  (<["source_map" := PyProxyMap Source]>
  (<["place_map" := PyProxyMap Place]>
  (<["event_map" := PyProxyMap Event]>
  (<["family_map" := PyProxyMap Family]>
  (<["person_map" := PyProxyMap Person]> dict)))))))).

(** [ProxyDbBase.__init__(self, db)] for a proxy class with the predicates
    [include]. *)
Definition init (include : Kind → option (hval → bool)) (db : Db)
  : result Db :=
  let basedb := innermost db in
  dict ← copy_attrs db copied_attrs ∅;
  Ok (DbProxy {| include := include; dict := add_maps dict |} db basedb).

End Getattr.

(** ** The cursor adapter *)

Module ProxyCursor.

(** [ProxyCursor(get_raw, get_handles)] *)
Record t : Type := {
  get_raw : hval → result struct;
  get_handles : unit → result (list hval)
}.

(** [__enter__] returns the cursor itself. *)
Definition enter (c : t) : t := c.

(** [__exit__] is [pass]: what it returns is [None], which is false, so an
    exception of the block is not suppressed. *)
Definition exit (c : t) (exc : option exn) : bool := false.

(** [with cursor as c: body(c)]; [Ok None] stands for a block whose
    exception [__exit__] suppressed. *)
Definition with_ {A : Type} (cursor : t) (body : t → result A)
  : result (option A) :=
  let c := enter cursor in
  match body c with
  | Ok a => let _ := exit c None in Ok (Some a)
  | Raise e => if exit c (Some e) then Ok None else Raise e
  end.

(** How a generator run ends. *)
Inductive ending : Set :=
| StopIteration
| Raised (e : exn).

(** The body of the [for] loop of [__iter__]: the pairs yielded, in order,
    and how the run ends after them. *)
Fixpoint loop (get_raw : hval → result struct) (handles : list hval)
  : list (hval * struct) * ending :=
  match handles with
  | [] => ([], StopIteration)
  | handle :: rest =>
    match py_bytes handle with
    | Raise e => ([], Raised e)
    | Ok key =>
      match get_raw handle with
      | Raise e => ([], Raised e)
      | Ok raw =>
        let '(items, fin) := loop get_raw rest in ((key, raw) :: items, fin)
      end
    end
  end.

(** [__iter__], run to its end. *)
Definition iter (c : t) : list (hval * struct) * ending :=
  match get_handles c () with
  | Raise e => ([], Raised e)
  | Ok handles => loop (get_raw c) handles
  end.

End ProxyCursor.

(** [get_person_cursor] ... [get_tag_cursor] of the proxy [p] *)
Definition get_cursor (p : Db) (K : Kind) : ProxyCursor.t :=
  {| ProxyCursor.get_raw := get_raw_data p K;
     ProxyCursor.get_handles := λ _, get_handles p K None |}.

(** ** Vocabulary of the statements *)

(** A predicate that is set accepts the handles it maps to true; one that
    is not set accepts every handle. *)
Definition accepts (predicate : option (hval → bool)) (h : hval) : bool :=
  match predicate with
  | Some p => p h
  | None => true
  end.

(** The databases [__init__] builds over the base store [b]: the store
    itself, or a proxy around such a database whose [basedb] is [b]. *)
Inductive over (b : Store) : Db → Prop :=
| over_base : over b (DbBase b)
| over_proxy self db : over b db → over b (DbProxy self db (DbBase b)).

(** What the proxy takes for granted of a base store: the handles it
    enumerates are non-empty [str]s, they are the handles its lookup
    finds, and an entity found under a handle carries that handle. *)
Record coherent (b : Store) : Prop := {
  coherent_str : ∀ K h, h ∈ st_iter_handles b K → ∃ s, h = HStr s ∧ s ≠ [];
  coherent_iter : ∀ K s,
    HStr s ∈ st_iter_handles b K ↔ is_Some (st_from_handle b K (HStr s));
  coherent_handle : ∀ K s e,
    st_from_handle b K (HStr s) = Some e → handle e = HStr s
}.

(** The handle list of the base store is the encoded form of its handle
    enumeration: every entry is a [bytes] that decodes, and the decoded
    entries are the enumerated handles. *)
Record encoded_handles (b : Store) (K : Kind) : Prop := {
  encoded_decodes : ∀ sort hdl,
    hdl ∈ st_get_handles b K sort → ∃ h, py_str hdl = Ok h;
  encoded_iter : ∀ sort h,
    h ∈ st_iter_handles b K ↔
    ∃ hdl, hdl ∈ st_get_handles b K sort ∧ py_str hdl = Ok h
}.

(** The predicates of a kind along a chain of proxies, outermost first. *)
Fixpoint predicates (d : Db) (K : Kind) : list (option (hval → bool)) :=
  match d with
  | DbProxy self db _ => include self K :: predicates db K
  | _ => []
  end.

(** Every predicate of the list accepts the handle. *)
Definition all_accept (ps : list (option (hval → bool))) (h : hval) : bool :=
  forallb (λ p, accepts p h) ps.

(** An entry of the base store's handle list passes a filtered
    enumeration when it decodes to one of the enumerated handles. *)
Definition passes (proxied : list hval) (hdl : hval) : bool :=
  match py_str hdl with
  | Ok h => bool_decide (h ∈ proxied)
  | Raise _ => false
  end.

(** What one step of the cursor's loop is meant to yield for a handle:
    the encoded handle and the record of the entity found under it. *)
Definition yields (p : Db) (K : Kind) (h : hval) (item : hval * struct)
  : Prop :=
  py_bytes h = Ok item.1 ∧
  ∃ e, get_from_handle p K h = Ok (Some e) ∧ item.2 = to_struct e.

(** ** A small database *)

Module Demo.

Definition person_A : Entity :=
  {| handle := HStr (lit "A"); to_struct := [("handle", lit "A")] |}.
Definition person_B : Entity :=
  {| handle := HStr (lit "B"); to_struct := [("handle", lit "B")] |}.
Definition event_E : Entity :=
  {| handle := HStr (lit "E"); to_struct := [("handle", lit "E")] |}.

(** Two persons and an event; the handle lists are in the encoded form.
    The store is writable: its [readonly] is [False], and it has
    [add_person]. *)
Definition store : Store :=
  {| st_is_open := true;
     st_from_handle := λ K h,
       match K with
       | Person =>
         if decide (h = HStr (lit "A")) then Some person_A
         else if decide (h = HStr (lit "B")) then Some person_B
         else None
       | Event => if decide (h = HStr (lit "E")) then Some event_E else None
       | _ => None
       end;
     st_from_gid := λ K val,
       match K with
       | Person =>
         if decide (val = lit "I0001") then Some person_A
         else if decide (val = lit "I0002") then Some person_B
         else None
       | Event => if decide (val = lit "E0001") then Some event_E else None
       | _ => None
       end;
     st_iter_handles := λ K,
       match K with
       | Person => [HStr (lit "A"); HStr (lit "B")]
       | Event => [HStr (lit "E")]
       | _ => []
       end;
     st_iter_objects := λ K _,
       match K with
       | Person => [person_A; person_B]
       | Event => [event_E]
       | _ => []
       end;
     st_get_handles := λ K _,
       match K with
       | Person => [HBytes ["A"%byte]; HBytes ["B"%byte]]
       | Event => [HBytes ["E"%byte]]
       | _ => []
       end;
     st_find_initial_person := Some person_A;
     st_attrs := λ name,
       if decide (name = "readonly") then Some (VBool false)
       else if decide (name ∈ copied_attrs) then Some (VObject 1)
       else if decide (name = "add_person") then Some (VObject 2)
       else if decide (name = "get_dbname") then Some (VObject 3)
       else None |}.

(** A closed copy of the same store. *)
Definition closed_store : Store :=
  {| st_is_open := false;
     st_from_handle := st_from_handle store;
     st_from_gid := st_from_gid store;
     st_iter_handles := st_iter_handles store;
     st_iter_objects := st_iter_objects store;
     st_get_handles := st_get_handles store;
     st_find_initial_person := st_find_initial_person store;
     st_attrs := st_attrs store |}.

(** The predicates of a proxy class that hides person [A]. *)
Definition hide_A (K : Kind) : option (hval → bool) :=
  match K with
  | Person => Some (λ h, bool_decide (h ≠ HStr (lit "A")))
  | _ => None
  end.

(** The predicates of a proxy class that hides person [B]. *)
Definition hide_B (K : Kind) : option (hval → bool) :=
  match K with
  | Person => Some (λ h, bool_decide (h ≠ HStr (lit "B")))
  | _ => None
  end.

(** The predicates of [ProxyDbBase] itself: none is set. *)
Definition include_all (K : Kind) : option (hval → bool) := None.

(** The instance [__init__] leaves over the store: the copied
    attributes, the maps and the table registry in its [__dict__]. *)
Definition obj (include : Kind → option (hval → bool)) : ProxyObj :=
  {| include := include;
     dict := add_maps (list_to_map ((λ n, (n, PyValue (VObject 1))) <$>
                                    copied_attrs)) |}.

(** A proxy around the store, and a second proxy around the first. *)
Definition plain : Db := DbProxy (obj include_all) (DbBase store) (DbBase store).
Definition private : Db := DbProxy (obj hide_A) (DbBase store) (DbBase store).
Definition stacked : Db := DbProxy (obj hide_B) private (DbBase store).

(** The writable-store contract of the example: two write methods and a
    class attribute. *)
Definition write_dict (name : string) : option pytype :=
  if decide (name = "add_person") then Some FunctionType
  else if decide (name = "commit_person") then Some FunctionType
  else if decide (name = "__init__") then Some FunctionType
  else if decide (name = "__doc__") then Some OtherType
  else None.

Definition no_inherited (name : string) : bool := false.

(** The identity in place of [sort_objects]. *)
Definition unsorted (objs : list Entity) (_ : order) (_ : Db) : list Entity :=
  objs.




End Demo.

(** ** Further operations of the proxy *)

(** [get_number_of_people] ... [get_number_of_tags] of the proxy [p]:
    [len(self.get_K_handles())]. *)
Definition get_number_of (p : Db) (K : Kind) : result nat :=
  hs ← get_handles p K None;
  Ok (length hs).

(** The dictionary-like view of raw records. *)
Module ProxyMap.

(** [ProxyMap(db, get_raw, get_keys)] *)
Record t : Type := {
  db : Db;
  get_raw : hval → result struct;
  get_keys : unit → result (list hval)
}.

(** [__getitem__] *)
Definition getitem (m : t) (handle : hval) : result struct :=
  get_raw m handle.

(** [[bytes(key, "utf-8") for key in keys]] *)
Fixpoint encode_keys (keys : list hval) : result (list hval) :=
  match keys with
  | [] => Ok []
  | key :: rest =>
    b ← py_bytes key;
    bs ← encode_keys rest;
    Ok (b :: bs)
  end.

(** [keys] *)
Definition keys (m : t) : result (list hval) :=
  ks ← get_keys m ();
  encode_keys ks.

End ProxyMap.

(** The kinds [__init__] makes a map for: there is no [citation_map] and
    no [tag_map]. *)
Definition has_map (K : Kind) : bool :=
  match K with
  | Citation | Tag => false
  | _ => true
  end.

(** [self.person_map] ... [self.note_map] as [__init__] builds them for
    the proxy [p]. *)
Definition proxy_map (p : Db) (K : Kind) : ProxyMap.t :=
  {| ProxyMap.db := p;
     ProxyMap.get_raw := get_raw_data p K;
     ProxyMap.get_keys := λ _, get_handles p K None |}.

(** The name of the map attribute of a kind. *)
Definition map_name (K : Kind) : string := kind_name K +:+ "_map".

(** *** The table registry *)

(** What an entry of a table holds: a bound method of the proxy, an
    entity class, or [None]. *)
Inductive table_entry : Set :=
| BoundMethod (name : string)
| EntityClass (K : Kind)
| NoEntry.

(** The key of a kind in [__tables]. *)
Definition table_name (K : Kind) : string :=
  match K with
  | Person => "Person" | Family => "Family" | Event => "Event"
  | Place => "Place" | Source => "Source" | Citation => "Citation"
  | Repository => "Repository" | Media => "Media" | Note => "Note"
  | Tag => "Tag"
  end.

(** [self.__tables], in the order the dictionary is written. *)
Definition tables : list (string * list (string * table_entry)) :=
  [("Person",
    [("handle_func", BoundMethod "get_person_from_handle");
     ("gid_func", BoundMethod "get_person_from_gid");
     ("class_func", EntityClass Person);
     ("cursor_func", BoundMethod "get_person_cursor");
     ("handles_func", BoundMethod "get_person_handles");
     ("iter_func", BoundMethod "iter_people");
     ("count_func", BoundMethod "get_number_of_people")]);
   ("Family",
    [("handle_func", BoundMethod "get_family_from_handle");
     ("gid_func", BoundMethod "get_family_from_gid");
     ("class_func", EntityClass Family);
     ("cursor_func", BoundMethod "get_family_cursor");
     ("handles_func", BoundMethod "get_family_handles");
     ("iter_func", BoundMethod "iter_families");
     ("count_func", BoundMethod "get_number_of_families")]);
   ("Source",
    [("handle_func", BoundMethod "get_source_from_handle");
     ("gid_func", BoundMethod "get_source_from_gid");
     ("class_func", EntityClass Source);
     ("cursor_func", BoundMethod "get_source_cursor");
     ("handles_func", BoundMethod "get_source_handles");
     ("iter_func", BoundMethod "iter_sources");
     ("count_func", BoundMethod "get_number_of_sources")]);
   ("Citation",
    [("handle_func", BoundMethod "get_citation_from_handle");
     ("gid_func", BoundMethod "get_citation_from_gid");
     ("class_func", EntityClass Citation);
     ("cursor_func", BoundMethod "get_citation_cursor");
     ("handles_func", BoundMethod "get_citation_handles");
     ("iter_func", BoundMethod "iter_citations");
     ("count_func", BoundMethod "get_number_of_citations")]);
   ("Event",
    [("handle_func", BoundMethod "get_event_from_handle");
     ("gid_func", BoundMethod "get_event_from_gid");
     ("class_func", EntityClass Event);
     ("cursor_func", BoundMethod "get_event_cursor");
     ("handles_func", BoundMethod "get_event_handles");
     ("iter_func", BoundMethod "iter_events");
     ("count_func", BoundMethod "get_number_of_events")]);
   ("Media",
    [("handle_func", BoundMethod "get_media_from_handle");
     ("gid_func", BoundMethod "get_media_from_gid");
     ("class_func", EntityClass Media);
     ("cursor_func", BoundMethod "get_media_cursor");
     ("handles_func", BoundMethod "get_media_handles");
     ("iter_func", BoundMethod "iter_media");
     ("count_func", BoundMethod "get_number_of_media")]);
   ("Place",
    [("handle_func", BoundMethod "get_place_from_handle");
     ("gid_func", BoundMethod "get_place_from_gid");
     ("class_func", EntityClass Place);
     ("cursor_func", BoundMethod "get_place_cursor");
     ("handles_func", BoundMethod "get_place_handles");
     ("iter_func", BoundMethod "iter_places");
     ("count_func", BoundMethod "get_number_of_places")]);
   ("Repository",
    [("handle_func", BoundMethod "get_repository_from_handle");
     ("gid_func", BoundMethod "get_repository_from_gid");
     ("class_func", EntityClass Repository);
     ("cursor_func", BoundMethod "get_repository_cursor");
     ("handles_func", BoundMethod "get_repository_handles");
     ("iter_func", BoundMethod "iter_repositories");
     ("count_func", BoundMethod "get_number_of_repositories")]);
   ("Note",
    [("handle_func", BoundMethod "get_note_from_handle");
     ("gid_func", BoundMethod "get_note_from_gid");
     ("class_func", EntityClass Note);
     ("cursor_func", BoundMethod "get_note_cursor");
     ("handles_func", BoundMethod "get_note_handles");
     ("iter_func", BoundMethod "iter_notes");
     ("count_func", BoundMethod "get_number_of_notes")]);
   ("Tag",
    [("handle_func", BoundMethod "get_tag_from_handle");
     ("gid_func", NoEntry);
     ("class_func", EntityClass Tag);
     ("cursor_func", BoundMethod "get_tag_cursor");
     ("handles_func", BoundMethod "get_tag_handles");
     ("iter_func", BoundMethod "iter_tags");
     ("count_func", BoundMethod "get_number_of_tags")])].

(** [d[key]] of a dictionary written as a list of items; [None] stands
    for the [KeyError]. *)
Fixpoint item {A : Type} (d : list (string * A)) (key : string) : option A :=
  match d with
  | [] => None
  | (k, v) :: rest => if decide (k = key) then Some v else item rest key
  end.

(** What [get_table_func] gives back. *)
Inductive table_answer : Type :=
| TableNames (names : list string)
| Table (t : list (string * table_entry))
| Entry (e : table_entry)
| Super (table func : string)   (* [super().get_table_func(table, func)] *)
| KeyError.

(** [get_table_func(table=None, func=None)] *)
Definition get_table_func (table func : option string) : table_answer :=
  match table with
  | None => TableNames (tables.*1)
  | Some t =>
    match func with
    | None =>
      match item tables t with
      | Some entries => Table entries
      | None => KeyError
      end
    | Some f =>
      match item tables t with
      | Some entries =>
        match item entries f with
        | Some e => Entry e
        | None => Super t f
        end
      | None => KeyError
      end
    end
  end.

(** The method names a kind has by the naming scheme of the class:
    lookup by handle and by id, cursor, handle list, iterator, count. *)
Definition plural (K : Kind) : string :=
  match K with
  | Person => "people" | Family => "families" | Event => "events"
  | Place => "places" | Source => "sources" | Citation => "citations"
  | Repository => "repositories" | Media => "media" | Note => "notes"
  | Tag => "tags"
  end.

Definition scheme (K : Kind) : list (string * table_entry) :=
  [("handle_func", BoundMethod (from_handle_name (kind_name K)));
   ("gid_func",
    match K with
    | Tag => NoEntry
    | _ => BoundMethod ("get_" +:+ kind_name K +:+ "_from_gid")
    end);
   ("class_func", EntityClass K);
   ("cursor_func", BoundMethod ("get_" +:+ kind_name K +:+ "_cursor"));
   ("handles_func", BoundMethod ("get_" +:+ kind_name K +:+ "_handles"));
   ("iter_func", BoundMethod ("iter_" +:+ plural K));
   ("count_func", BoundMethod ("get_number_of_" +:+ plural K))].

(** *** Operations that go through the attribute lookup *)

(** The instance attribute each bookmark accessor returns:
    [get_bookmarks] returns [self.bookmarks], [get_repo_bookmarks]
    returns [self.repo_bookmarks], and so on; tags have none. *)
Definition bookmarks_attr (K : Kind) : option string :=
  match K with
  | Person => Some "bookmarks"
  | Family => Some "family_bookmarks"
  | Event => Some "event_bookmarks"
  | Place => Some "place_bookmarks"
  | Source => Some "source_bookmarks"
  | Citation => Some "citation_bookmarks"
  | Media => Some "media_bookmarks"
  | Repository => Some "repo_bookmarks"
  | Note => Some "note_bookmarks"
  | Tag => None
  end.

Section Lookups.

Variable writes : string → option pytype.   (* [DbWriteBase.__dict__] *)
Variable inherited : string → bool.         (* the names of the other classes *)

(** [get_bookmarks] ... [get_note_bookmarks]: the attribute read on
    [self]. *)
Definition get_bookmarks (p : Db) (attr : string) : result pyattr :=
  (getattr writes inherited p attr).1.

(** The databases made by [__init__] alone: a base store, or what
    [__init__] returns for such a database. *)
Inductive built : Db → Prop :=
| built_base b : built (DbBase b)
| built_proxy incl db p :
    built db → init writes inherited incl db = Ok p → built p.

(** [obj.include()] of the entity classes, and the call of a method the
    concrete proxy class defines, both outside [proxybase.py]. *)
Variable include_of : Entity → bool.
Variable call_member : string → hval → result (option Entity).

(** Calling what an attribute lookup returned, with one handle. *)
Definition call (f : pyattr) (h : hval) : result (option Entity) :=
  match f with
  | PyLookup s K => Ok (st_from_handle s K h)
  | PyMember name => call_member name h
  | PyValue _ | PyProxyMap _ => Raise TypeError
  end.

(** [include_something(handle, obj=None)]: the answer, and the proxy
    after the call. *)
Definition include_something (p : Db) (handle : hval) (obj : option Entity)
  : result bool * Db :=
  match obj with
  | Some o => (Ok (include_of o), p)
  | None =>
    match getattr writes inherited p "get_unfiltered_something" with
    | (Ok f, p') =>
      (fetched ← call f handle;
       match fetched with
       | Some o => Ok (include_of o)
       | None => Raise AttributeError
       end, p')
    | (Raise e, p') => (Raise e, p')
    end
  end.

End Lookups.

Section DefaultPerson.

(** [get_default_person()] of a base store. *)
Variable default_person : Store → option Entity.

(** [get_default_person] *)
Fixpoint get_default_person (d : Db) : result (option Entity) :=
  match d with
  | DbNone => Raise AttributeError
  | DbBase s => Ok (default_person s)
  | DbProxy _ db _ => get_default_person db
  end.

End DefaultPerson.

(** ** The Traditional-Chinese date handler

    [gramps/gen/datehandler/_date_zh_TW.py]: the tables of the parser
    and of the display class, and [DateDisplayZH_TW.display]. *)

Module DateZH_TW.

(** A [str] literal of the source file, which is UTF-8. *)
Definition u (s : string) : str :=
  default [] (Utf8.decode (String.list_byte_of_string s)).

(** [t[i]] of a tuple: a negative index counts from the end, and an index
    outside the tuple is an [IndexError]. *)
Definition getitem {A : Type} (t : list A) (i : Z) : result A :=
  let j := (if i <? 0 then i + Z.of_nat (length t) else i)%Z in
  if (j <? 0)%Z then Raise IndexError
  else
    match t !! Z.to_nat j with
    | Some x => Ok x
    | None => Raise IndexError
    end.

(** A dict display with [str] keys: of two items with the same key the
    later one stays. *)
Definition dict_of (items : list (str * Z)) : gmap str Z :=
  foldl (λ d kv, <[kv.1 := kv.2]> d) ∅ items.

(** *** The month names of the parser *)

(** The dict objects of the parser classes are held by reference:
    [DateParser.month_to_int] is a reference into the heap. *)
Definition ref : Type := nat.
Definition heap : Type := gmap ref (gmap str Z).

(** [d[key] = value] on the dict [d] refers to. *)
Definition setitem (h : heap) (d : ref) (key : str) (value : Z) : heap :=
  alter (<[key := value]>) d h.

(** The item assignments of the class body of [DateParserZH_TW], in the
    order they are written. *)
Definition month_assignments : list (str * Z) :=
  [(u "正", 1);
   (u "一", 1);
   (u "zhēngyuè", 1);
   (u "二", 2);
   (u "èryuè", 2);
   (u "三", 3);
   (u "sānyuè", 3);
   (u "四", 4);
   (u "sìyuè", 4);
   (u "五", 5);
   (u "wǔyuè", 5);
   (u "六", 6);
   (u "liùyuè", 6);
   (u "七", 7);
   (u "qīyuè", 7);
   (u "八", 8);
   (u "bāyuè", 8);
   (u "九", 9);
   (u "jiǔyuè", 9);
   (u "十", 10);
   (u "shíyuè", 10);
   (u "十一", 11);
   (u "shíyīyuè", 11);
   (u "十二", 12);
   (u "shí'èryuè", 12);
   (u "假閏", 13);
   (u "jiǎ rùn yùe", 13)]%Z.

(** The statements of the class body on [month_to_int]: the name is
    bound to what [DateParser.month_to_int] refers to, and the items are
    assigned through it. The result is the reference the class attribute
    [DateParserZH_TW.month_to_int] holds, and the heap. *)
Definition month_to_int (DateParser_month_to_int : ref) (h : heap)
  : ref * heap :=
  let month_to_int := DateParser_month_to_int in
  (month_to_int,
   foldl (λ h kv, setitem h month_to_int kv.1 kv.2) h month_assignments).

(** *** The tables of the display class *)

(** [long_months] *)
Definition long_months : list str :=
  [u ""; u "正月"; u "二月"; u "三月"; u "四月"; u "五月"; u "六月"; u "七月"; u "八月";
   u "九月"; u "十月"; u "十一月"; u "十二月"].

(** [short_months] *)
Definition short_months : list str :=
  [u ""; u "一月"; u "二月"; u "三月"; u "四月"; u "五月"; u "六月"; u "七月"; u "八月";
   u "九月"; u "十月"; u "十一月"; u "十二月"].

(** [formats] *)
Definition formats : list str :=
  [u "年年年年-月月-日日 (ISO)"; u "數字格式"; u "月 日，年"; u "月 日，年"; u "日 月 年";
   u "日 月 年"].

(** [calendar] *)
Definition calendar : list str :=
  [u ""; u "儒略曆"; u "希伯來歷"; u "法國共和歷"; u "伊郎歷"; u "伊斯蘭曆"; u "瑞典歷"].

(** [_mod_str] *)
Definition _mod_str : list str :=
  [u ""; u "以前 "; u "以後 "; u "大約 "; u ""; u ""; u ""].

(** [_qual_str] *)
Definition _qual_str : list str :=
  [u ""; u "據估計 "; u "據計算 "; u ""].

(** An instance of the display class, as far as [display] reads its
    attributes: what the instance [__dict__] binds under [_qual_str] and
    [_mod_str], if anything. [DateDisplay.__init__], which is not in this
    file, may bind them. *)
Record DateDisplayInstance : Type := {
  own_qual_str : option (list str);
  own_mod_str : option (list str)
}.

(** [self._qual_str] and [self._mod_str]: the attribute of the instance
    where it has one, the attribute of the class otherwise. *)
Definition self_qual_str (self : DateDisplayInstance) : list str :=
  default _qual_str (own_qual_str self).

Definition self_mod_str (self : DateDisplayInstance) : list str :=
  default _mod_str (own_mod_str self).

(** The constants of [gramps.gen.lib.date.Date] the file names. *)
Record DateClass : Type := {
  MOD_BEFORE : Z; MOD_AFTER : Z; MOD_ABOUT : Z;
  MOD_RANGE : Z; MOD_SPAN : Z; MOD_TEXTONLY : Z;
  CAL_GREGORIAN : Z; CAL_JULIAN : Z; CAL_HEBREW : Z; CAL_FRENCH : Z;
  CAL_PERSIAN : Z; CAL_ISLAMIC : Z; CAL_SWEDISH : Z;
  QUAL_ESTIMATED : Z; QUAL_CALCULATED : Z
}.

Section Date.

(** The class [Date] of [gramps.gen.lib.date], as far as the file names
    its constants. *)
Variable Date : DateClass.

(** *** The tables of the parser *)

(** [modifier_to_int] *)
Definition modifier_to_int : list (str * Z) :=
  [(u "以前", MOD_BEFORE Date);
   (u "以後", MOD_AFTER Date);
   (u "大約", MOD_ABOUT Date)].

(** [calendar_to_int] *)
Definition calendar_to_int : list (str * Z) :=
  [(u "陽曆", CAL_GREGORIAN Date);
   (u "g", CAL_GREGORIAN Date);
   (u "儒略曆", CAL_JULIAN Date);
   (u "j", CAL_JULIAN Date);
   (u "希伯來歷", CAL_HEBREW Date);
   (u "h", CAL_HEBREW Date);
   (u "伊斯蘭曆", CAL_ISLAMIC Date);
   (u "i", CAL_ISLAMIC Date);
   (u "法國共和歷", CAL_FRENCH Date);
   (u "f", CAL_FRENCH Date);
   (u "伊郎歷", CAL_PERSIAN Date);
   (u "p", CAL_PERSIAN Date);
   (u "瑞典歷", CAL_SWEDISH Date);
   (u "s", CAL_SWEDISH Date)].

(** [quality_to_int] *)
Definition quality_to_int : list (str * Z) :=
  [(u "據估計", QUAL_ESTIMATED Date);
   (u "據計算", QUAL_CALCULATED Date)].

(** *** The display *)

(** A date value (the tuple [get_start_date()] returns) and the new-year
    setting of a date. *)
Context {dateval newyear : Type} `{EqDecision dateval}.

(** [Date.EMPTY] *)
Variable EMPTY : dateval.

(** [self.display_cal[cal](date_val)] and [self.format_extras(cal,
    newyear)] of [DateDisplay]. *)
Variable display_cal : Z → dateval → result str.
Variable format_extras : Z → newyear → result str.

(** An instance of [Date], as far as [display] reads it. *)
Record DateInstance : Type := {
  get_modifier : Z;
  get_calendar : Z;
  get_quality : Z;
  get_start_date : dateval;
  get_stop_date : dateval;
  get_new_year : newyear;
  get_text : str
}.

(** [DateDisplayZH_TW.display] *)
Definition display (self : DateDisplayInstance) (date : DateInstance)
  : result str :=
  let mod_ := get_modifier date in
  let cal := get_calendar date in
  let qual := get_quality date in
  let start := get_start_date date in
  let newyear := get_new_year date in
  qual_str ← getitem (self_qual_str self) qual;
  if bool_decide (mod_ = MOD_TEXTONLY Date) then Ok (get_text date)
  else if bool_decide (start = EMPTY) then Ok (u "")
  else if bool_decide (mod_ = MOD_SPAN Date) then
    d1 ← display_cal cal start;
    d2 ← display_cal cal (get_stop_date date);
    scal ← format_extras cal newyear;
    Ok (qual_str ++ u "自" ++ u " " ++ d1 ++ u " " ++ u "至" ++ u " " ++ d2
        ++ scal)
  else if bool_decide (mod_ = MOD_RANGE Date) then
    d1 ← display_cal cal start;
    d2 ← display_cal cal (get_stop_date date);
    scal ← format_extras cal newyear;
    Ok (qual_str ++ u "介於" ++ u " " ++ d1 ++ u " " ++ u "與" ++ u " " ++ d2
        ++ scal ++ u "之間")
  else
    text ← display_cal (get_calendar date) start;
    scal ← format_extras cal newyear;
    mod_str ← getitem (self_mod_str self) mod_;
    Ok (qual_str ++ mod_str ++ text ++ scal).

End Date.

End DateZH_TW.

(** * Properties *)

(** ** The codec on examples *)

Example py_str_ascii :
  py_str (HBytes ["a"%byte; "1"%byte]) = Ok (HStr (lit "a1")).
Proof. reflexivity. Qed.

Example py_bytes_two_byte : py_bytes (HStr [0xE9%N]) = Ok (HBytes [xc3; xa9]).
Proof. reflexivity. Qed.

Example py_bytes_of_bytes : py_bytes (HBytes ["a"%byte]) = Raise TypeError.
Proof. reflexivity. Qed.

Example py_str_of_str : py_str (HStr (lit "a")) = Raise TypeError.
Proof. reflexivity. Qed.

(** Decoding undoes encoding. *)

Section Codec.
Local Open Scope N_scope.

Lemma to_N_byte_of n : n < 256 → Byte.to_N (Utf8.byte_of n) = n.
Proof.
  intros Hn. unfold Utf8.byte_of. rewrite N.mod_small by done.
  destruct (Byte.of_N n) as [b|] eqn:E.
  - by apply Byte.to_of_N.
  - apply Byte.of_N_None_iff in E. lia.
Qed.

Lemma cont_byte_of n : n < 64 → Utf8.cont (Utf8.byte_of (0x80 + n)) = Some n.
Proof.
  intros Hn. unfold Utf8.cont. rewrite to_N_byte_of by lia.
  destruct (N.leb_spec 0x80 (0x80 + n)); [|lia].
  destruct (N.ltb_spec (0x80 + n) 0xC0); [|lia].
  cbn [andb]. f_equal. lia.
Qed.

Lemma decode_cons b0 r0 :
  Utf8.decode (b0 :: r0) =
    let n0 := Byte.to_N b0 in
    if n0 <? 0x80 then cons n0 <$> Utf8.decode r0
    else if n0 <? 0xC2 then None
    else if n0 <? 0xE0 then
      match r0 with
      | b1 :: r1 =>
        match Utf8.cont b1 with
        | Some c1 => cons ((n0 - 0xC0) * 64 + c1) <$> Utf8.decode r1
        | None => None
        end
      | _ => None
      end
    else if n0 <? 0xF0 then
      match r0 with
      | b1 :: b2 :: r2 =>
        match Utf8.cont b1, Utf8.cont b2 with
        | Some c1, Some c2 =>
          let c := (n0 - 0xE0) * 4096 + c1 * 64 + c2 in
          if (c <? 0x800) || ((0xD800 <=? c) && (c <=? 0xDFFF)) then None
          else cons c <$> Utf8.decode r2
        | _, _ => None
        end
      | _ => None
      end
    else if n0 <? 0xF5 then
      match r0 with
      | b1 :: b2 :: b3 :: r3 =>
        match Utf8.cont b1, Utf8.cont b2, Utf8.cont b3 with
        | Some c1, Some c2, Some c3 =>
          let c := (n0 - 0xF0) * 262144 + c1 * 4096 + c2 * 64 + c3 in
          if (c <? 0x10000) || (0x110000 <=? c) then None
          else cons c <$> Utf8.decode r3
        | _, _, _ => None
        end
      | _ => None
      end
    else None.
Proof. reflexivity. Qed.

Ltac divmod c k q r :=
  pose proof (N.div_mod c k ltac:(lia));
  pose proof (N.mod_lt c k ltac:(lia));
  set (q := c / k) in *; set (r := c mod k) in *; clearbody q r.

Ltac ltb_case :=
  match goal with
  | |- context [?a <? ?b] => destruct (N.ltb_spec a b); try lia
  | |- context [?a <=? ?b] => destruct (N.leb_spec a b); try lia
  end.

Lemma decode_encode_cp c bs rest :
  Utf8.encode_cp c = Some bs →
  Utf8.decode (bs ++ rest) = cons c <$> Utf8.decode rest.
Proof.
  unfold Utf8.encode_cp.
  destruct (N.ltb_spec c 0x80) as [H1|H1].
  { intros [= <-]. cbn [app]. rewrite decode_cons. cbv zeta.
    rewrite to_N_byte_of by lia. by ltb_case. }
  destruct (N.ltb_spec c 0x800) as [H2|H2].
  { intros [= <-]. cbn [app]. rewrite decode_cons. cbv beta iota zeta.
    divmod c 64 q r.
    rewrite to_N_byte_of by lia. rewrite cont_byte_of by lia.
    repeat ltb_case. do 2 f_equal. lia. }
  destruct (N.ltb_spec c 0x10000) as [H3|H3].
  { assert (c / 4096 = c / 64 / 64) as -> by (by rewrite N.Div0.div_div).
    destruct (N.leb_spec 0xD800 c) as [H4|H4];
      [destruct (N.leb_spec c 0xDFFF) as [H5|H5]|]; cbn [andb];
      [discriminate| |].
    all: intros [= <-]; cbn [app]; rewrite decode_cons; cbv beta iota zeta;
      divmod c 64 q r; divmod q 64 q' r';
      rewrite to_N_byte_of by lia; rewrite !cont_byte_of by lia;
      repeat ltb_case; cbn [orb andb]; do 2 f_equal; lia. }
  destruct (N.ltb_spec c 0x110000) as [H4|H4]; [|discriminate].
  assert (c / 262144 = c / 64 / 64 / 64) as -> by (by rewrite !N.Div0.div_div).
  assert (c / 4096 = c / 64 / 64) as -> by (by rewrite N.Div0.div_div).
  intros [= <-]. cbn [app]. rewrite decode_cons. cbv beta iota zeta.
  divmod c 64 q r. divmod q 64 q' r'. divmod q' 64 q'' r''.
  rewrite to_N_byte_of by lia. rewrite !cont_byte_of by lia.
  repeat ltb_case. cbn [orb andb]. do 2 f_equal. lia.
Qed.

Lemma decode_encode s bs : Utf8.encode s = Some bs → Utf8.decode bs = Some s.
Proof.
  revert bs. induction s as [|c s IH]; intros bs; simpl.
  - by intros [= <-].
  - destruct (Utf8.encode_cp c) as [b|] eqn:Hc; [|discriminate].
    destruct (Utf8.encode s) as [br|]; [|discriminate].
    intros [= <-]. rewrite (decode_encode_cp c b br Hc).
    by rewrite (IH br eq_refl).
Qed.

End Codec.

(** The key a cursor yields for a [str] handle decodes to the handle. *)
Lemma py_str_py_bytes h key : py_bytes h = Ok key → py_str key = Ok h.
Proof.
  destruct h as [s|b]; simpl; [|discriminate].
  destruct (Utf8.encode s) as [bs|] eqn:Hs; [|discriminate].
  intros [= <-]. simpl. by rewrite (decode_encode s bs Hs).
Qed.

(** No value goes through both conversions: what [str(x, 'utf-8')]
    accepts, [bytes(x, 'utf-8')] refuses. *)
Lemma py_str_py_bytes_exclusive x h :
  py_str x = Ok h → py_bytes x = Raise TypeError.
Proof. destruct x; [discriminate | reflexivity]. Qed.

(** ** The filters *)

Lemma gfilter_Some predicate obj e :
  gfilter predicate obj = Some e ↔
  obj = Some e ∧ accepts predicate (handle e) = true.
Proof.
  destruct predicate as [p|], obj as [o|]; simpl.
  - destruct (p (handle o)) eqn:Hp; split.
    + intros [= <-]. auto.
    + intros [Ho _]. exact Ho.
    + discriminate.
    + intros [[= <-] Hq]. congruence.
  - split; [discriminate | intros [? _]; discriminate].
  - split; [intros ->; auto | intros [Ho _]; exact Ho].
  - split; [discriminate | intros [? _]; discriminate].
Qed.

Lemma gfilter_is_None predicate obj :
  gfilter predicate obj = None ↔
  obj = None ∨ ∃ e, obj = Some e ∧ accepts predicate (handle e) = false.
Proof.
  destruct predicate as [p|], obj as [o|]; simpl.
  - destruct (p (handle o)) eqn:Hp; split.
    + discriminate.
    + intros [? | (e & [= <-] & Hq)]; [discriminate | congruence].
    + intros _. right. eauto.
    + reflexivity.
  - split; [auto | reflexivity].
  - split; [discriminate|].
    intros [? | (e & _ & ?)]; discriminate.
  - split; [auto | reflexivity].
Qed.

Lemma py_filter_None_truthy hs :
  Forall (λ h, truthy h = true) hs → py_filter None hs = hs.
Proof.
  simpl. induction 1 as [|h hs Hh _ IH]; simpl; [done|].
  by rewrite Hh, IH.
Qed.

(** ** Lookup by handle *)

(** C1: [get_K_from_handle(h)] of a proxy, whenever the lookup of the
    wrapped store returns, returns too (it raises nothing): it gives the
    entity of the wrapped store exactly when that store has one and the
    predicate of the kind, if one is set, accepts it, and [None] in every
    other case, that is when the wrapped store has none or the predicate
    refuses it. *)
Theorem get_from_handle_filtered self db basedb K h obj :
  get_from_handle db K h = Ok obj →
  ∃ r, get_from_handle (DbProxy self db basedb) K h = Ok r ∧
    (∀ e, r = Some e ↔
          obj = Some e ∧ accepts (include self K) (handle e) = true) ∧
    (r = None ↔
     obj = None ∨
     ∃ e, obj = Some e ∧ accepts (include self K) (handle e) = false).
Proof.
  intros Hdb. exists (gfilter (include self K) obj). split.
  - simpl. by rewrite Hdb.
  - split; [intros e; apply gfilter_Some | apply gfilter_is_None].
Qed.

Lemma get_from_handle_filtered_witness :
  get_from_handle (DbBase Demo.store) Person (HStr (lit "A"))
  = Ok (Some Demo.person_A) ∧
  ∃ r, get_from_handle Demo.private Person (HStr (lit "A")) = Ok r ∧
    (∀ e, r = Some e ↔
          Some Demo.person_A = Some e ∧
          accepts (Demo.hide_A Person) (handle e) = true) ∧
    (r = None ↔
     Some Demo.person_A = None ∨
     ∃ e, Some Demo.person_A = Some e ∧
          accepts (Demo.hide_A Person) (handle e) = false).
Proof.
  split; [reflexivity|].
  apply (get_from_handle_filtered (Demo.obj Demo.hide_A) (DbBase Demo.store)
           (DbBase Demo.store) Person (HStr (lit "A")) (Some Demo.person_A)).
  reflexivity.
Defined.

(** The lookup of a proxy raises only what the lookup of the wrapped
    database raises. *)
Lemma get_from_handle_raises self db basedb K h e :
  get_from_handle (DbProxy self db basedb) K h = Raise e ↔
  get_from_handle db K h = Raise e.
Proof. simpl. destruct (get_from_handle db K h); simpl; naive_solver. Qed.

Lemma has_handle_get self db basedb K h :
  has_handle self db K h = Ok true ↔
  ∃ e, get_from_handle (DbProxy self db basedb) K h = Ok (Some e).
Proof.
  unfold has_handle. simpl.
  destruct (get_from_handle db K h) as [obj|ex]; simpl.
  - destruct (gfilter (include self K) obj) as [e|] eqn:Hg.
    + rewrite bool_decide_eq_true_2 by eauto. naive_solver.
    + rewrite bool_decide_eq_false_2 by (intros [? ?]; discriminate).
      split; [discriminate | intros [e [=]]].
  - split; [discriminate | intros [e [=]]].
Qed.

(** ** Raw records *)

(** C7: [get_raw_K_data(h)] returns a record exactly when the filtered
    lookup [get_K_from_handle(h)] finds an entity, and the record is the
    [to_struct()] of that entity, serialized at the call; when [h] is
    absent from the wrapped store or refused by the predicate the call
    raises ([AttributeError], from [None.to_struct]) and returns no
    record. *)
Theorem get_raw_data_serializes self db basedb K h :
  let p := DbProxy self db basedb in
  (∀ raw, get_raw_data p K h = Ok raw ↔
          ∃ e, get_from_handle p K h = Ok (Some e) ∧ to_struct e = raw) ∧
  (∀ obj, get_from_handle db K h = Ok obj →
          obj = None ∨
          (∃ e, obj = Some e ∧ accepts (include self K) (handle e) = false) →
          get_raw_data p K h = Raise AttributeError).
Proof.
  intros p. split.
  - intros raw. unfold get_raw_data.
    destruct (get_from_handle p K h) as [[e|]|ex]; simpl.
    + split; [intros [= <-]; eauto | intros (e' & [= <-] & <-); done].
    + split; [discriminate | intros (e' & [=] & _)].
    + split; [discriminate | intros (e' & [=] & _)].
  - intros obj Hdb Hobj. unfold get_raw_data, p. simpl. rewrite Hdb. simpl.
    apply gfilter_is_None in Hobj. by rewrite Hobj.
Qed.

Lemma get_raw_data_serializes_witness :
  (∀ raw, get_raw_data Demo.private Person (HStr (lit "A")) = Ok raw ↔
          ∃ e, get_from_handle Demo.private Person (HStr (lit "A"))
               = Ok (Some e) ∧ to_struct e = raw) ∧
  get_raw_data Demo.private Person (HStr (lit "A")) = Raise AttributeError ∧
  get_raw_data Demo.private Person (HStr (lit "B"))
  = Ok [("handle", lit "B")].
Proof.
  pose proof (get_raw_data_serializes (Demo.obj Demo.hide_A)
                (DbBase Demo.store) (DbBase Demo.store) Person
                (HStr (lit "A"))) as [Hraw Hexcl].
  split; [exact Hraw|]. split; [|reflexivity].
  apply (Hexcl (Some Demo.person_A)); [reflexivity|].
  right. exists Demo.person_A. split; reflexivity.
Defined.

(** ** The initial person *)


Example find_initial_person_excluded : find_initial_person Demo.private = Ok None.
Proof. reflexivity. Qed.

Example find_initial_person_included :
  find_initial_person Demo.plain = Ok (Some Demo.person_A).
Proof. reflexivity. Qed.


(** ** The default predicate *)




(** [filter(None, ...)] on the handles of that store. *)
Example py_filter_None_drops_empty :
  py_filter None [HStr []; HStr (lit "A")] = [HStr (lit "A")].
Proof. reflexivity. Qed.

(** ** Chains of proxies over a coherent store *)

Section Chain.

Variable b : Store.
Hypothesis Hb : coherent b.

Lemma over_not_None d : over b d → d ≠ DbNone.
Proof. by destruct 1. Qed.

Lemma over_is_open d : over b d → is_open d = Ok (st_is_open b).
Proof. induction 1 as [|self db _ IH]; [reflexivity | exact IH]. Qed.

Lemma over_innermost d : over b d → innermost d = DbBase b.
Proof. induction 1 as [|self db _ IH]; [reflexivity | exact IH]. Qed.

Lemma base_handles_truthy K h : h ∈ st_iter_handles b K → truthy h = true.
Proof.
  intros Hh. destruct (coherent_str b Hb K h Hh) as (s & -> & Hs).
  by destruct s.
Qed.

Lemma py_filter_accepts predicate hs :
  Forall (λ h, truthy h = true) hs →
  py_filter predicate hs = List.filter (accepts predicate) hs.
Proof.
  destruct predicate as [p|]; [reflexivity|]. intros Hhs.
  rewrite py_filter_None_truthy by done. simpl.
  induction Hhs as [|h hs _ _ IH]; simpl; [done | by rewrite <- IH].
Qed.

Lemma filter_filter_accept p ps (hs : list hval) :
  List.filter (accepts p) (List.filter (all_accept ps) hs)
  = List.filter (all_accept (p :: ps)) hs.
Proof.
  induction hs as [|h hs IH]; simpl; [done|].
  destruct (all_accept ps h) eqn:Hps; simpl.
  - rewrite IH. destruct (accepts p h); simpl; done.
  - rewrite IH. by rewrite andb_false_r.
Qed.

(** The enumeration of a chain: the handles of the base store that every
    predicate of the chain accepts, in the order of the base store. *)
Lemma over_iter_handles d K :
  over b d →
  iter_handles d K
  = Ok (List.filter (all_accept (predicates d K)) (st_iter_handles b K)).
Proof.
  induction 1 as [|self db _ IH]; simpl.
  - f_equal. induction (st_iter_handles b K); simpl; [done | by f_equal].
  - rewrite IH. simpl. f_equal.
    rewrite py_filter_accepts.
    + apply filter_filter_accept.
    + apply Forall_forall. intros h Hh.
      apply list_elem_of_In, filter_In in Hh as [Hh _].
      by apply base_handles_truthy with K, list_elem_of_In.
Qed.

Lemma over_iter_handles_elem_of d K h :
  over b d →
  ∃ hs, iter_handles d K = Ok hs ∧
        (h ∈ hs ↔
         h ∈ st_iter_handles b K ∧ all_accept (predicates d K) h = true).
Proof.
  intros Hd. eexists. split; [by apply over_iter_handles|].
  rewrite !list_elem_of_In. apply filter_In.
Qed.

(** The lookup of a chain under a [str] handle: the entity of the base
    store when every predicate of the chain accepts the handle. *)
Lemma over_get_from_handle d K s :
  over b d →
  get_from_handle d K (HStr s)
  = Ok (if all_accept (predicates d K) (HStr s)
        then st_from_handle b K (HStr s) else None).
Proof.
  induction 1 as [|self db _ IH]; simpl; [done|].
  rewrite IH. simpl. f_equal.
  destruct (all_accept (predicates db K) (HStr s)); simpl.
  - destruct (st_from_handle b K (HStr s)) as [e|] eqn:He.
    + rewrite <- (coherent_handle b Hb K s e He).
      destruct (include self K) as [p|]; simpl; [|done].
      by destruct (p (handle e)).
    + destruct (include self K), (accepts _ _); done.
  - rewrite andb_false_r. by destruct (include self K).
Qed.

(** A [str] handle is found through a chain exactly when the chain
    enumerates it. *)
Lemma over_visible d K s :
  over b d →
  (∃ e, get_from_handle d K (HStr s) = Ok (Some e)) ↔
  ∃ hs, iter_handles d K = Ok hs ∧ HStr s ∈ hs.
Proof.
  intros Hd. rewrite over_get_from_handle, over_iter_handles by done.
  split.
  - intros [e He]. eexists. split; [done|].
    apply list_elem_of_In, filter_In.
    destruct (all_accept _ _); [|by inversion He]. split; [|done].
    apply list_elem_of_In, (coherent_iter b Hb).
    inversion He as [He']. rewrite He'. by eexists.
  - intros (hs & [= <-] & Hs).
    apply list_elem_of_In, filter_In in Hs as [Hs ->].
    apply list_elem_of_In, (coherent_iter b Hb) in Hs as [e He].
    exists e. by rewrite He.
Qed.

End Chain.

(** ** The example store *)

Lemma demo_coherent : coherent Demo.store.
Proof.
  split.
  - intros K h Hh. apply list_elem_of_In in Hh.
    destruct K; simpl in Hh; intuition subst; eexists; split; done.
  - intros K s. rewrite list_elem_of_In.
    destruct K; simpl; repeat case_decide; split;
      try (intros [e [=]]); intuition (subst; eauto; try congruence).
  - intros K s e.
    destruct K; simpl; repeat case_decide; intros [= <-]; done.
Qed.

Lemma demo_encoded_handles : encoded_handles Demo.store Person.
Proof.
  split.
  - intros sort hdl Hh. apply list_elem_of_In in Hh. simpl in Hh.
    intuition subst; eexists; reflexivity.
  - intros sort h. rewrite list_elem_of_In. simpl. split.
    + intros [<-|[<-|[]]].
      * exists (HBytes ["A"%byte]). split; [|reflexivity]. set_solver.
      * exists (HBytes ["B"%byte]). split; [|reflexivity]. set_solver.
    + intros (hdl & Hh & Hd). apply list_elem_of_In in Hh. simpl in Hh.
      destruct Hh as [<-|[<-|[]]]; injection Hd as <-; auto.
Qed.

(** ** Composition *)

(** C8: with proxy [p2] around proxy [p1] around the base store [b], the
    handles visible through [p2] are the handles of [b] that the
    predicates of both proxies accept: [iter_K_handles] of [p2]
    enumerates exactly those, and [get_K_from_handle] of [p2] finds
    exactly those. *)
Theorem stacked_proxies_intersect b self1 self2 K :
  coherent b →
  let p1 := DbProxy self1 (DbBase b) (DbBase b) in
  let p2 := DbProxy self2 p1 (DbBase b) in
  let both h := accepts (include self1 K) h && accepts (include self2 K) h in
  (∃ hs, iter_handles p2 K = Ok hs ∧
         ∀ h, h ∈ hs ↔ h ∈ st_iter_handles b K ∧ both h = true) ∧
  (∀ s, (∃ e, get_from_handle p2 K (HStr s) = Ok (Some e)) ↔
        HStr s ∈ st_iter_handles b K ∧ both (HStr s) = true).
Proof.
  intros Hb p1 p2 both.
  assert (Hp2 : over b p2) by (repeat constructor).
  assert (Hboth : ∀ h, all_accept (predicates p2 K) h = both h).
  { intros h. unfold both. simpl. rewrite andb_true_r. apply andb_comm. }
  split.
  - eexists. split; [by apply over_iter_handles|].
    intros h. rewrite <- Hboth, !list_elem_of_In. apply filter_In.
  - intros s. rewrite (over_visible b Hb p2 K s Hp2).
    rewrite (over_iter_handles b Hb p2 K Hp2). split.
    + intros (hs & [= <-] & Hs).
      rewrite <- Hboth, !list_elem_of_In. by apply filter_In, list_elem_of_In.
    + intros Hs. eexists. split; [done|].
      rewrite <- Hboth, !list_elem_of_In in Hs.
      by apply list_elem_of_In, filter_In.
Qed.

Lemma stacked_proxies_intersect_witness :
  coherent Demo.store ∧
  ∃ hs, iter_handles Demo.stacked Person = Ok hs ∧
        ∀ h, h ∈ hs ↔
             h ∈ st_iter_handles Demo.store Person ∧
             accepts (Demo.hide_A Person) h && accepts (Demo.hide_B Person) h
             = true.
Proof.
  split; [exact demo_coherent|].
  exact (proj1 (stacked_proxies_intersect Demo.store (Demo.obj Demo.hide_A)
                  (Demo.obj Demo.hide_B) Person demo_coherent)).
Defined.

Example stacked_hides_both : iter_handles Demo.stacked Person = Ok [].
Proof. reflexivity. Qed.

Example private_hides_A :
  iter_handles Demo.private Person = Ok [HStr (lit "B")].
Proof. reflexivity. Qed.

(** The same for a chain of any length. *)
Lemma chain_visible b d K s :
  coherent b → over b d →
  (∃ e, get_from_handle d K (HStr s) = Ok (Some e)) ↔
  HStr s ∈ st_iter_handles b K ∧ all_accept (predicates d K) (HStr s) = true.
Proof.
  intros Hb Hd. rewrite (over_visible b Hb d K s Hd).
  destruct (over_iter_handles_elem_of b Hb d K (HStr s) Hd) as (hs & Hhs & Hin).
  rewrite Hhs. split.
  - intros (hs' & [= <-] & Hs). by apply Hin.
  - intros Hs. exists hs. split; [done | by apply Hin].
Qed.

(** ** Handle lists *)

Lemma decoded_in_filter proxied all :
  (∀ hdl, hdl ∈ all → ∃ h, py_str hdl = Ok h) →
  decoded_in (list_to_set proxied) all = Ok (List.filter (passes proxied) all).
Proof.
  induction all as [|hdl rest IH]; intros Hall; simpl; [done|].
  destruct (Hall hdl) as [h Hh]; [set_solver|].
  unfold passes at 1. rewrite Hh. simpl.
  rewrite IH by (intros x Hx; apply Hall; set_solver). simpl.
  destruct (decide (h ∈ (list_to_set proxied : gset hval))) as [Hin|Hin].
  - rewrite bool_decide_eq_true_2; [done | set_solver].
  - rewrite bool_decide_eq_false_2; [done | set_solver].
Qed.

(** What a proxy returns for the base-sorted kinds are entries of the
    base store's list, hence [bytes]. *)
Lemma decoded_in_bytes proxied all hs hdl :
  decoded_in proxied all = Ok hs → hdl ∈ hs → ∃ h, py_str hdl = Ok h.
Proof.
  revert hs. induction all as [|x rest IH]; intros hs; simpl.
  - intros [= <-] Hin. by apply elem_of_nil in Hin.
  - destruct (py_str x) as [h|] eqn:Hx; simpl; [|discriminate].
    destruct (decoded_in proxied rest) as [tl|]; simpl; [|discriminate].
    intros [= <-] Hin. case_decide.
    + apply elem_of_cons in Hin as [->|Hin]; eauto.
    + eauto.
Qed.

(** The three branches of [get_K_handles]. *)
Lemma get_handles_sorted self db basedb K sort_handles proxied all :
  base_sorted K = true →
  db ≠ DbNone →
  is_open db = Ok true →
  iter_handles (DbProxy self db basedb) K = Ok proxied →
  get_handles basedb K (Some (default false sort_handles)) = Ok all →
  (∀ hdl, hdl ∈ all → ∃ h, py_str hdl = Ok h) →
  get_handles (DbProxy self db basedb) K sort_handles
  = Ok (List.filter (passes proxied) all).
Proof.
  intros HK Hdb Hopen Hiter Hbase Hall.
  cbn [get_handles].
  assert (takes_sort_handles K = true) as -> by (by destruct K).
  rewrite HK. cbn [negb andb].
  destruct db as [|s|self' db' basedb']; [done| |].
  - rewrite Hopen. cbn -[iter_handles decoded_in get_handles].
    rewrite Hiter. cbn -[decoded_in get_handles].
    rewrite Hbase. cbn -[decoded_in]. by apply decoded_in_filter.
  - rewrite Hopen. cbn -[iter_handles decoded_in get_handles].
    rewrite Hiter. cbn -[decoded_in get_handles].
    rewrite Hbase. cbn -[decoded_in]. by apply decoded_in_filter.
Qed.

Lemma get_handles_unsorted self db basedb K :
  base_sorted K = false →
  db ≠ DbNone →
  is_open db = Ok true →
  get_handles (DbProxy self db basedb) K None
  = iter_handles (DbProxy self db basedb) K.
Proof.
  intros HK Hdb Hopen. cbn [get_handles].
  rewrite HK, andb_false_r.
  destruct db; [done| |]; by rewrite Hopen.
Qed.

Lemma get_handles_closed self db basedb K sort_handles :
  takes_sort_handles K = true ∨ sort_handles = None →
  db = DbNone ∨ is_open db = Ok false →
  get_handles (DbProxy self db basedb) K sort_handles = Ok [].
Proof.
  intros Hsig Hclosed. cbn [get_handles].
  assert (negb (takes_sort_handles K) && bool_decide (is_Some sort_handles)
          = false) as ->.
  { destruct Hsig as [->| ->]; [done|].
    rewrite bool_decide_eq_false_2; [apply andb_false_r|].
    intros [? [=]]. }
  destruct Hclosed as [->|Hopen]; [done|].
  destruct db; [done| |]; by rewrite Hopen.
Qed.

(** C6: for Person and Family, over an open wrapped store,
    [get_K_handles(sort_handles)] is the handle list of the base store
    [b], asked with the same [sort_handles], in the order of [b], cut
    down to the entries that pass the proxy's own filtered enumeration
    (an entry passes when the handle it decodes to is enumerated by
    [iter_K_handles]); and for every kind, when the wrapped reference is
    [None] or the wrapped store is not open, [get_K_handles] returns the
    empty list. *)
Theorem get_handles_base_order self db b K sort_handles proxied :
  let p := DbProxy self db (DbBase b) in
  let all := st_get_handles b K (default false sort_handles) in
  (base_sorted K = true →
   db ≠ DbNone →
   is_open db = Ok true →
   iter_handles p K = Ok proxied →
   (∀ hdl, hdl ∈ all → ∃ h, py_str hdl = Ok h) →
   get_handles p K sort_handles = Ok (List.filter (passes proxied) all)) ∧
  (∀ K' basedb,
     takes_sort_handles K' = true ∨ sort_handles = None →
     db = DbNone ∨ is_open db = Ok false →
     get_handles (DbProxy self db basedb) K' sort_handles = Ok []).
Proof.
  intros p all. split.
  - intros HK Hdb Hopen Hiter Hall.
    by apply get_handles_sorted.
  - intros K' basedb. apply get_handles_closed.
Qed.

Lemma get_handles_base_order_witness :
  (base_sorted Person = true ∧
   DbBase Demo.store ≠ DbNone ∧
   is_open (DbBase Demo.store) = Ok true ∧
   iter_handles Demo.private Person = Ok [HStr (lit "B")] ∧
   (∀ hdl, hdl ∈ st_get_handles Demo.store Person true →
           ∃ h, py_str hdl = Ok h)) ∧
  get_handles Demo.private Person (Some true)
  = Ok (List.filter (passes [HStr (lit "B")])
                    (st_get_handles Demo.store Person true)) ∧
  (is_open (DbBase Demo.closed_store) = Ok false ∧
   get_handles (DbProxy (Demo.obj Demo.hide_A) (DbBase Demo.closed_store)
                        (DbBase Demo.closed_store)) Event None = Ok []).
Proof.
  assert (Hdec : ∀ hdl, hdl ∈ st_get_handles Demo.store Person true →
                        ∃ h, py_str hdl = Ok h)
    by apply (encoded_decodes _ _ demo_encoded_handles).
  split; [repeat split; done|]. split.
  - apply (proj1 (get_handles_base_order (Demo.obj Demo.hide_A)
                    (DbBase Demo.store) Demo.store Person (Some true)
                    [HStr (lit "B")])); done.
  - split; [reflexivity|].
    apply (proj2 (get_handles_base_order (Demo.obj Demo.hide_A)
                    (DbBase Demo.closed_store) Demo.closed_store Event None
                    [])); [by right | by right].
Defined.

Example get_person_handles_private :
  get_handles Demo.private Person None = Ok [HBytes ["B"%byte]].
Proof. reflexivity. Qed.

Example get_event_handles_sorted :
  get_handles Demo.private Event (Some true) = Raise TypeError.
Proof. reflexivity. Qed.

(** ** The three observations of a handle *)

(** C2, at the failing input: over the example store the proxy has the
    person handle ['A'] and finds the person under it, while
    [get_person_handles()] holds the entries [b'A'] and [b'B'] of the
    base store's list, of which the [str] ['A'] is not a member. *)
Theorem person_handle_not_listed :
  has_handle (Demo.obj Demo.include_all) (DbBase Demo.store) Person
             (HStr (lit "A")) = Ok true ∧
  get_from_handle Demo.plain Person (HStr (lit "A"))
  = Ok (Some Demo.person_A) ∧
  get_handles Demo.plain Person None
  = Ok [HBytes ["A"%byte]; HBytes ["B"%byte]] ∧
  HStr (lit "A") ∉ [HBytes ["A"%byte]; HBytes ["B"%byte]].
Proof.
  repeat split; try reflexivity.
  intros Hin. apply list_elem_of_In in Hin. simpl in Hin.
  destruct Hin as [[=]|[[=]|[]]].
Qed.

(** Were the entries of the base store's list [str]s, the list
    comprehension would raise at the first of them. *)
Lemma get_handles_sorted_str_raises self db basedb K sort_handles proxied s rest :
  base_sorted K = true →
  db ≠ DbNone →
  is_open db = Ok true →
  iter_handles (DbProxy self db basedb) K = Ok proxied →
  get_handles basedb K (Some (default false sort_handles))
  = Ok (HStr s :: rest) →
  get_handles (DbProxy self db basedb) K sort_handles = Raise TypeError.
Proof.
  intros HK Hdb Hopen Hiter Hbase.
  cbn [get_handles].
  assert (takes_sort_handles K = true) as -> by (by destruct K).
  rewrite HK. cbn [negb andb].
  destruct db as [|s0|self' db' basedb']; [done| |].
  - rewrite Hopen. cbn -[iter_handles decoded_in get_handles].
    rewrite Hiter. cbn -[decoded_in get_handles].
    by rewrite Hbase.
  - rewrite Hopen. cbn -[iter_handles decoded_in get_handles].
    rewrite Hiter. cbn -[decoded_in get_handles].
    by rewrite Hbase.
Qed.

(** What does hold of the three observations over an open, coherent
    base store: [has_K_handle(h)] is true exactly when
    [get_K_from_handle(h)] finds an entity; for the kinds other than
    Person and Family and a [str] handle [h], exactly when [h] is a
    member of [get_K_handles()]; and for Person and Family, whose
    [get_K_handles()] holds entries of the base store's list and never a
    [str], exactly when some member of [get_K_handles()] decodes to
    [h]. *)
Lemma handle_observations_agree b self db K :
  coherent b → over b db → st_is_open b = true →
  let p := DbProxy self db (DbBase b) in
  (∀ h, has_handle self db K h = Ok true ↔
        ∃ e, get_from_handle p K h = Ok (Some e)) ∧
  (base_sorted K = false →
   ∀ s, has_handle self db K (HStr s) = Ok true ↔
        ∃ hs, get_handles p K None = Ok hs ∧ HStr s ∈ hs) ∧
  (base_sorted K = true → encoded_handles b K →
   ∀ s, (has_handle self db K (HStr s) = Ok true ↔
         ∃ hs, get_handles p K None = Ok hs ∧
               ∃ hdl, hdl ∈ hs ∧ py_str hdl = Ok (HStr s)) ∧
        (∀ hs, get_handles p K None = Ok hs → HStr s ∉ hs)).
Proof.
  intros Hb Hdb Hopen p.
  assert (Hp : over b p) by (by constructor).
  assert (Hnn : db ≠ DbNone) by (by apply over_not_None with b).
  assert (Hop : is_open db = Ok true)
    by (by rewrite (over_is_open b db Hdb), Hopen).
  split; [intros h; apply has_handle_get|]. split.
  - intros HK s. rewrite (has_handle_get self db (DbBase b)).
    fold p. rewrite (over_visible b Hb p K s Hp).
    unfold p. by rewrite get_handles_unsorted.
  - intros HK Henc s.
    pose proof (over_iter_handles b Hb p K Hp) as Hiter.
    set (proxied := List.filter (all_accept (predicates p K))
                                (st_iter_handles b K)) in Hiter.
    assert (Hget : get_handles p K None
                   = Ok (List.filter (passes proxied)
                                     (st_get_handles b K false))).
    { apply get_handles_sorted; try done.
      intros hdl. apply (encoded_decodes b K Henc). }
    rewrite Hget. split.
    + rewrite (has_handle_get self db (DbBase b)). fold p.
      rewrite (over_visible b Hb p K s Hp), Hiter. split.
      * intros (hs & [= <-] & Hs).
        assert (Hbase : HStr s ∈ st_iter_handles b K).
        { apply list_elem_of_In. apply list_elem_of_In, filter_In in Hs.
          tauto. }
        apply (encoded_iter b K Henc false) in Hbase as (hdl & Hin & Hd).
        eexists. split; [done|]. exists hdl. split; [|done].
        apply list_elem_of_In, filter_In. split; [by apply list_elem_of_In|].
        unfold passes. rewrite Hd. by apply bool_decide_eq_true_2.
      * intros (hs & [= <-] & hdl & Hin & Hd).
        apply list_elem_of_In, filter_In in Hin as [_ Hpass].
        unfold passes in Hpass. rewrite Hd in Hpass.
        apply bool_decide_eq_true_1 in Hpass. eauto.
    + intros hs [= <-] Hin.
      apply list_elem_of_In, filter_In in Hin as [Hin _].
      apply list_elem_of_In, (encoded_decodes b K Henc) in Hin as [h [=]].
Qed.

Example handle_observations_demo :
  (coherent Demo.store ∧ over Demo.store (DbBase Demo.store) ∧
   st_is_open Demo.store = true) ∧
  (has_handle (Demo.obj Demo.hide_A) (DbBase Demo.store) Event
              (HStr (lit "E")) = Ok true ↔
   ∃ hs, get_handles Demo.private Event None = Ok hs ∧ HStr (lit "E") ∈ hs) ∧
  (has_handle (Demo.obj Demo.hide_A) (DbBase Demo.store) Person
              (HStr (lit "B")) = Ok true ↔
   ∃ hs, get_handles Demo.private Person None = Ok hs ∧
         ∃ hdl, hdl ∈ hs ∧ py_str hdl = Ok (HStr (lit "B"))).
Proof.
  split; [split; [exact demo_coherent | split; [constructor | reflexivity]]|].
  split.
  - apply (proj1 (proj2 (handle_observations_agree Demo.store
             (Demo.obj Demo.hide_A) (DbBase Demo.store) Event
             demo_coherent (over_base _) eq_refl)) eq_refl).
  - apply (proj2 (proj2 (handle_observations_agree Demo.store
             (Demo.obj Demo.hide_A) (DbBase Demo.store) Person
             demo_coherent (over_base _) eq_refl)) eq_refl
             demo_encoded_handles).
Qed.

(** ** Attribute fallback *)

Section Fallback.

Variable writes : string → option pytype.   (* [DbWriteBase.__dict__] *)
Variable inherited : string → bool.         (* the names of the other classes *)

(** A lookup changes an object only by caching a [get_unfiltered]
    accessor. *)
Lemma getattr_pure d name :
  is_get_unfiltered name = false → (getattr writes inherited d name).2 = d.
Proof.
  intros Hname. induction d as [|s|self db IHdb basedb IHbasedb]; simpl;
    [done | done |].
  destruct (defined inherited self name); [done|].
  case_bool_decide; [done|]. rewrite Hname.
  destruct (is_write_method writes name); [done|].
  destruct (getattr writes inherited db name) as [r db'] eqn:Hdb. simpl in *. by subst.
Qed.

Lemma getattr_defined self db basedb name v :
  defined inherited self name = Some v →
  getattr writes inherited (DbProxy self db basedb) name
  = (Ok v, DbProxy self db basedb).
Proof. intros H. simpl. by rewrite H. Qed.

(** C4, amended: for a name the proxy does not define, other than
    [readonly] and the [get_unfiltered] names, the lookup raises
    [AttributeError] when the name is a write method of the
    writable-store contract (a function of [DbWriteBase.__dict__] whose
    name does not start with two underscores), whatever the wrapped
    store holds under that name and leaving the proxy as it was, and is
    otherwise the lookup of the same name on the wrapped store;
    [readonly] is answered [True] by the proxy itself. *)
Theorem getattr_fallback self db basedb name :
  defined inherited self name = None →
  let p := DbProxy self db basedb in
  (name ≠ "readonly" → is_get_unfiltered name = false →
   is_write_method writes name = true →
   getattr writes inherited p name = (Raise AttributeError, p)) ∧
  (name ≠ "readonly" → is_get_unfiltered name = false →
   is_write_method writes name = false →
   getattr writes inherited p name = ((getattr writes inherited db name).1, p)) ∧
  (name = "readonly" → getattr writes inherited p name = (Ok (PyValue (VBool true)), p)).
Proof.
  intros Hdef p. unfold p. simpl. rewrite Hdef.
  split; [|split].
  - intros Hro Hunf Hw. rewrite bool_decide_eq_false_2 by done.
    by rewrite Hunf, Hw.
  - intros Hro Hunf Hw. rewrite bool_decide_eq_false_2 by done.
    rewrite Hunf, Hw.
    pose proof (getattr_pure db name Hunf) as Hpure.
    destruct (getattr writes inherited db name) as [r db']. simpl in *. by subst.
  - intros ->. done.
Qed.

End Fallback.

(** C4, as stated, fails: [readonly] is no write operation and the proxy
    does not define it, yet the lookup is not forwarded; the proxy
    answers [True] where the wrapped store has [False]. *)
Lemma readonly_not_forwarded :
  ¬ (defined Demo.no_inherited (Demo.obj Demo.include_all) "readonly" = None →
     is_write_method Demo.write_dict "readonly" = false →
     (getattr Demo.write_dict Demo.no_inherited Demo.plain "readonly").1
     = (getattr Demo.write_dict Demo.no_inherited (DbBase Demo.store)
                "readonly").1).
Proof.
  intros H. specialize (H eq_refl eq_refl).
  vm_compute in H. discriminate.
Qed.

Lemma getattr_fallback_witness :
  defined Demo.no_inherited (Demo.obj Demo.hide_A) "add_person" = None ∧
  is_write_method Demo.write_dict "add_person" = true ∧
  getattr Demo.write_dict Demo.no_inherited Demo.private "add_person"
  = (Raise AttributeError, Demo.private) ∧
  getattr Demo.write_dict Demo.no_inherited Demo.stacked "get_dbname"
  = ((getattr Demo.write_dict Demo.no_inherited Demo.private "get_dbname").1,
     Demo.stacked).
Proof.
  split; [reflexivity|]. split; [reflexivity|]. split.
  - apply (proj1 (getattr_fallback Demo.write_dict Demo.no_inherited
                    (Demo.obj Demo.hide_A) (DbBase Demo.store)
                    (DbBase Demo.store) "add_person" eq_refl));
      [discriminate | reflexivity | reflexivity].
  - apply (proj1 (proj2 (getattr_fallback Demo.write_dict Demo.no_inherited
                    (Demo.obj Demo.hide_B) Demo.private
                    (DbBase Demo.store) "get_dbname" eq_refl)));
      [discriminate | reflexivity | reflexivity].
Defined.

(** A name the proxies do not define goes down the chain to the store;
    [bookmarks] is found on the proxy instance, where [__init__] put it. *)
Example getattr_get_dbname :
  (getattr Demo.write_dict Demo.no_inherited Demo.stacked "get_dbname").1
  = Ok (PyValue (VObject 3)).
Proof. reflexivity. Qed.

Example getattr_bookmarks :
  defined Demo.no_inherited (Demo.obj Demo.hide_B) "bookmarks"
  = Some (PyValue (VObject 1)).
Proof. reflexivity. Qed.

(** The example proxies are what [__init__] builds. *)
Example init_private :
  init Demo.write_dict Demo.no_inherited Demo.hide_A (DbBase Demo.store)
  = Ok Demo.private.
Proof. vm_compute. reflexivity. Qed.

Example init_stacked :
  init Demo.write_dict Demo.no_inherited Demo.hide_B Demo.private
  = Ok Demo.stacked.
Proof. vm_compute. reflexivity. Qed.

(** A write method is refused even though the wrapped store has it. *)
Example getattr_add_person :
  (getattr Demo.write_dict Demo.no_inherited (DbBase Demo.store)
           "add_person").1 = Ok (PyValue (VObject 2)) ∧
  (getattr Demo.write_dict Demo.no_inherited Demo.plain "add_person").1
  = Raise AttributeError.
Proof. split; reflexivity. Qed.

(** ** Unfiltered accessors *)

Lemma class_names_not_unfiltered name :
  name ∈ ["db"; "basedb"] ++ ProxyDbBase_dict ++ copied_attrs ++ map_attrs →
  is_get_unfiltered name = false.
Proof.
  intros Hin. apply list_elem_of_In in Hin.
  assert (Hall : forallb (λ n, negb (is_get_unfiltered n))
                   (["db"; "basedb"] ++ ProxyDbBase_dict ++ copied_attrs
                    ++ map_attrs) = true) by (vm_compute; reflexivity).
  rewrite forallb_forall in Hall. apply Hall in Hin.
  by apply negb_true_iff in Hin.
Qed.

Lemma split_take3 name a b c :
  take 3 (split_underscore name) = [a; b; c] →
  take 2 (split_underscore name) = [a; b] ∧
  split_underscore name !! 2%nat = Some c.
Proof.
  destruct (split_underscore name) as [|x [|y [|z l]]]; simpl;
    try discriminate.
  intros [= -> -> ->]. done.
Qed.

Lemma kind_of_from_handle_name K :
  kind_of_from_handle (from_handle_name (kind_name K)) = Some K.
Proof. destruct K; vm_compute; reflexivity. Qed.

Lemma add_maps_keys (d : gmap string pyattr) name :
  is_Some (add_maps d !! name) → name ∈ map_attrs ∨ is_Some (d !! name).
Proof.
  unfold add_maps, map_attrs.
  repeat (rewrite lookup_insert; case_decide; [subst; left; set_solver|]).
  auto.
Qed.

Section Unfiltered.

Variable writes : string → option pytype.
Variable inherited : string → bool.

Lemma copy_attrs_keys db names (d d' : gmap string pyattr) name :
  copy_attrs writes inherited db names d = Ok d' →
  is_Some (d' !! name) → name ∈ names ∨ is_Some (d !! name).
Proof.
  revert d. induction names as [|n rest IH]; intros d; simpl.
  - intros [= <-]. auto.
  - destruct (getattr writes inherited db n).1 as [v|]; simpl; [|discriminate].
    intros Hcopy Hsome. destruct (IH _ Hcopy Hsome) as [Hin|Hin].
    + left. set_solver.
    + rewrite lookup_insert in Hin. case_decide; [subst; left; set_solver|].
      by right.
Qed.

(** What [__init__] builds: the proxy around [db], with the store under
    the chain for [basedb], and no [get_unfiltered] name bound yet. *)
Lemma init_inv incl db p :
  init writes inherited incl db = Ok p →
  ∃ self, p = DbProxy self db (innermost db) ∧
          include self = incl ∧
          ∀ name, is_get_unfiltered name = true → dict self !! name = None.
Proof.
  unfold init.
  destruct (copy_attrs writes inherited db copied_attrs ∅) as [d|] eqn:Hcopy; simpl;
    [|discriminate].
  intros [= <-]. eexists. split; [reflexivity|]. split; [reflexivity|].
  simpl. intros name Hname. apply eq_None_not_Some. intros Hsome.
  assert (Hin : name ∈ copied_attrs ++ map_attrs).
  { apply add_maps_keys in Hsome as [Hin|Hsome];
      [apply elem_of_app; by right|].
    apply (copy_attrs_keys _ _ _ _ _ Hcopy) in Hsome as [Hin|Hsome];
      [apply elem_of_app; by left|].
    rewrite lookup_empty in Hsome. by destruct Hsome. }
  rewrite class_names_not_unfiltered in Hname; [discriminate|].
  rewrite !elem_of_app in *. tauto.
Qed.

Lemma unfiltered_not_defined self name :
  is_get_unfiltered name = true →
  dict self !! name = None →
  inherited name = false →
  defined inherited self name = None.
Proof.
  intros Hname Hdict Hinh. unfold defined. rewrite Hdict, Hinh.
  rewrite !bool_decide_eq_false_2; [done| |].
  - intros Hin. rewrite class_names_not_unfiltered in Hname; [done|].
    rewrite !elem_of_app. tauto.
  - intros Hin. rewrite class_names_not_unfiltered in Hname; [done|].
    rewrite !elem_of_app. tauto.
Qed.

(** The first lookup of a [get_unfiltered] name of kind [K] on a proxy
    whose [basedb] is the store [b]. *)
Lemma getattr_unfiltered_first self db b K name :
  take 3 (split_underscore name) = ["get"; "unfiltered"; kind_name K] →
  defined inherited self name = None →
  getattr writes inherited (DbProxy self db (DbBase b)) name
  = (Ok (PyLookup b K),
     DbProxy (setattr self name (PyLookup b K)) db (DbBase b)).
Proof.
  intros Hsplit Hdef. apply split_take3 in Hsplit as [Htake Hword].
  simpl. rewrite Hdef.
  assert (Hunf : is_get_unfiltered name = true)
    by (by apply bool_decide_eq_true_2).
  rewrite bool_decide_eq_false_2.
  - rewrite Hunf, Hword. unfold base_getattr.
    by rewrite kind_of_from_handle_name.
  - intros ->. vm_compute in Hunf. discriminate.
Qed.

(** C5: on a proxy built by [__init__] around a chain of proxies of any
    length over the base store [b], [__init__] has walked down to [b]
    for [basedb], and a [get_unfiltered] name of kind [K] that the
    instance does not hold yet resolves to the lookup by handle of [b]
    itself: calling it with a handle gives what [b] has under the
    handle, whatever the predicates of the chain are. The first lookup
    binds the accessor in the instance [__dict__] under the name asked
    for and changes nothing else of the instance; the next lookup of the
    name finds it there by the ordinary lookup and returns the same
    accessor, leaving the proxy as it is. *)
Theorem get_unfiltered_reads_base incl db b K name p :
  over b db →
  take 3 (split_underscore name) = ["get"; "unfiltered"; kind_name K] →
  inherited name = false →
  init writes inherited incl db = Ok p →
  ∃ self self',
    p = DbProxy self db (DbBase b) ∧
    dict self !! name = None ∧
    getattr writes inherited p name
    = (Ok (PyLookup b K), DbProxy self' db (DbBase b)) ∧
    include self' = include self ∧
    dict self' !! name = Some (PyLookup b K) ∧
    (∀ n, n ≠ name → dict self' !! n = dict self !! n) ∧
    defined inherited self' name = Some (PyLookup b K) ∧
    getattr writes inherited (DbProxy self' db (DbBase b)) name
    = (Ok (PyLookup b K), DbProxy self' db (DbBase b)) ∧
    ∀ h, call_with_handle (PyLookup b K) h = Ok (st_from_handle b K h).
Proof.
  intros Hover Hsplit Hinh Hinit.
  apply init_inv in Hinit as (self & -> & _ & Hfresh).
  rewrite (over_innermost b db Hover).
  assert (Hunf : is_get_unfiltered name = true).
  { apply bool_decide_eq_true_2. by apply split_take3 in Hsplit as [? _]. }
  assert (Hcached : defined inherited (setattr self name (PyLookup b K)) name
                    = Some (PyLookup b K)).
  { unfold defined, setattr. cbn [dict]. by rewrite lookup_insert_eq. }
  exists self, (setattr self name (PyLookup b K)).
  split; [reflexivity|]. split; [by apply Hfresh|].
  split; [|split; [|split; [|split; [|split; [|split]]]]].
  - apply getattr_unfiltered_first; [done|].
    apply unfiltered_not_defined; auto.
  - reflexivity.
  - unfold setattr. cbn [dict]. apply lookup_insert_eq.
  - intros n Hn. unfold setattr. cbn [dict]. by apply lookup_insert_ne.
  - exact Hcached.
  - by apply getattr_defined.
  - reflexivity.
Qed.

End Unfiltered.

Lemma get_unfiltered_reads_base_witness :
  (over Demo.store Demo.private ∧
   take 3 (split_underscore "get_unfiltered_person")
   = ["get"; "unfiltered"; kind_name Person] ∧
   Demo.no_inherited "get_unfiltered_person" = false ∧
   init Demo.write_dict Demo.no_inherited Demo.hide_B Demo.private
   = Ok Demo.stacked) ∧
  get_from_handle Demo.stacked Person (HStr (lit "A")) = Ok None ∧
  (∃ self',
     getattr Demo.write_dict Demo.no_inherited Demo.stacked
             "get_unfiltered_person"
     = (Ok (PyLookup Demo.store Person),
        DbProxy self' Demo.private (DbBase Demo.store)) ∧
     dict self' !! "get_unfiltered_person"
     = Some (PyLookup Demo.store Person)) ∧
  call_with_handle (PyLookup Demo.store Person) (HStr (lit "A"))
  = Ok (Some Demo.person_A).
Proof.
  assert (Hover : over Demo.store Demo.private) by (repeat constructor).
  split; [split; [exact Hover | split; [reflexivity | split;
                    [reflexivity | exact init_stacked]]]|].
  split; [reflexivity|]. split; [|reflexivity].
  destruct (get_unfiltered_reads_base Demo.write_dict Demo.no_inherited
              Demo.hide_B Demo.private Demo.store Person
              "get_unfiltered_person" Demo.stacked Hover eq_refl eq_refl
              init_stacked)
    as (self & self' & _ & _ & Hfirst & _ & Hdict & _).
  exists self'. by split.
Defined.

(** The name the callers use, [get_unfiltered_person_from_handle], is of
    the same pattern. *)
Example get_unfiltered_person_from_handle_word :
  take 3 (split_underscore "get_unfiltered_person_from_handle")
  = ["get"; "unfiltered"; kind_name Person].
Proof. reflexivity. Qed.

(** Names of the pattern without a kind the base store knows fail. *)
Example get_unfiltered_alone :
  (getattr Demo.write_dict Demo.no_inherited Demo.plain "get_unfiltered").1
  = Raise IndexError.
Proof. reflexivity. Qed.

Example get_unfiltered_something :
  (getattr Demo.write_dict Demo.no_inherited Demo.plain
           "get_unfiltered_something").1 = Raise AttributeError.
Proof. reflexivity. Qed.

(** ** The cursor *)

(** The scoped block holds no resource of the store: entering gives the
    cursor back, and leaving lets the exception of the body through. *)
Lemma with_transparent {A} (c : ProxyCursor.t) (body : ProxyCursor.t → result A) :
  ProxyCursor.with_ c body = (body c ≫= λ a, Ok (Some a)).
Proof. unfold ProxyCursor.with_, ProxyCursor.enter. by destruct (body c). Qed.

(** The handle lists of Person and Family hold entries of the base
    store's list only, which [str(hdl, 'utf-8')] accepted. *)
Lemma get_handles_sorted_bytes self db basedb K sort_handles hs hdl :
  base_sorted K = true →
  get_handles (DbProxy self db basedb) K sort_handles = Ok hs →
  hdl ∈ hs → ∃ h, py_str hdl = Ok h.
Proof.
  intros HK. cbn [get_handles]. rewrite HK.
  destruct (negb (takes_sort_handles K) && _); [discriminate|].
  assert (Hnil : Ok [] = Ok hs → hdl ∈ hs → ∃ h, py_str hdl = Ok h).
  { intros [= <-] Hin. by apply elem_of_nil in Hin. }
  assert (Hopen : (is_open db ≫= λ opened : bool,
             if opened
             then iter_handles (DbProxy self db basedb) K ≫= λ proxied,
                  get_handles basedb K (Some (default false sort_handles))
                  ≫= λ all, decoded_in (list_to_set proxied) all
             else Ok []) = Ok hs → hdl ∈ hs → ∃ h, py_str hdl = Ok h).
  { destruct (is_open db) as [[|]|]; cbn -[iter_handles decoded_in get_handles];
      [|exact Hnil|discriminate].
    destruct (iter_handles (DbProxy self db basedb) K) as [proxied|];
      cbn -[decoded_in get_handles]; [|discriminate].
    destruct (get_handles basedb K _) as [all|]; cbn -[decoded_in];
      [|discriminate].
    apply decoded_in_bytes. }
  destruct db; [exact Hnil | exact Hopen | exact Hopen].
Qed.

(** The loop stops at the first handle that is a [bytes]. *)
Lemma loop_bytes get_raw hs :
  (∀ hdl, hdl ∈ hs → ∃ h, py_str hdl = Ok h) →
  (ProxyCursor.loop get_raw hs).1 = [].
Proof.
  destruct hs as [|hdl rest]; [done|]. intros Hall. simpl.
  destruct (Hall hdl) as [h Hh]; [by left|].
  by rewrite (py_str_py_bytes_exclusive hdl h Hh).
Qed.

(** A cursor of Person or Family never yields a pair, whatever the
    stores under the proxy are. *)
Lemma sorted_cursor_yields_nothing self db basedb K :
  base_sorted K = true →
  (ProxyCursor.iter (get_cursor (DbProxy self db basedb) K)).1 = [].
Proof.
  intros HK. unfold ProxyCursor.iter, get_cursor.
  cbn [ProxyCursor.get_handles ProxyCursor.get_raw].
  destruct (get_handles (DbProxy self db basedb) K None) as [hs|] eqn:Hhs;
    [|done].
  apply loop_bytes. intros hdl.
  by apply (get_handles_sorted_bytes self db basedb K None hs hdl).
Qed.

(** C9, at the failing input: over the example store the proxy lists two
    persons, and the iteration of the Person cursor yields no pair and
    ends in the [TypeError] of [bytes(handle, "utf-8")], the handles of
    [get_person_handles] being [bytes] already. *)
Theorem person_cursor_raises :
  get_handles Demo.plain Person None
  = Ok [HBytes ["A"%byte]; HBytes ["B"%byte]] ∧
  ProxyCursor.iter (get_cursor Demo.plain Person)
  = ([], ProxyCursor.Raised TypeError).
Proof. split; reflexivity. Qed.

(** The cursor of the other kinds does what the adapter is meant for. *)
Example event_cursor_yields :
  ProxyCursor.iter (get_cursor Demo.plain Event)
  = ([(HBytes ["E"%byte], [("handle", lit "E")])], ProxyCursor.StopIteration).
Proof. reflexivity. Qed.

Section CursorOfUnsortedKinds.

Variable b : Store.
Hypothesis Hb : coherent b.
Hypothesis Hopen : st_is_open b = true.

Lemma loop_yields p K hs :
  (∀ h, h ∈ hs → ∃ s e, h = HStr s ∧ get_from_handle p K h = Ok (Some e)) →
  (∀ h, h ∈ hs → ∃ key, py_bytes h = Ok key) →
  ∃ items, ProxyCursor.loop (get_raw_data p K) hs
           = (items, ProxyCursor.StopIteration) ∧
           Forall2 (yields p K) hs items.
Proof.
  induction hs as [|h rest IH]; intros Hvis Henc; simpl.
  - exists []. split; [done | constructor].
  - destruct (Henc h) as [key Hkey]; [by left|].
    destruct (Hvis h) as (s & e & -> & He); [by left|].
    destruct IH as (items & Hloop & Hitems).
    { intros x Hx. apply Hvis. by right. }
    { intros x Hx. apply Henc. by right. }
    rewrite Hkey. unfold get_raw_data at 1. rewrite He. simpl.
    rewrite Hloop. eexists. split; [reflexivity|].
    constructor; [|done]. split; [done|]. eauto.
Qed.

(** For a kind other than Person and Family, over an open coherent store
    whose handles encode, the iteration runs to its end and yields one
    pair for each handle of [get_K_handles()], in order: the encoded
    handle and the record of the entity found under it. *)
Lemma unsorted_cursor_yields self db K :
  over b db →
  base_sorted K = false →
  (∀ h, h ∈ st_iter_handles b K → ∃ key, py_bytes h = Ok key) →
  let p := DbProxy self db (DbBase b) in
  ∃ hs items,
    get_handles p K None = Ok hs ∧
    ProxyCursor.iter (get_cursor p K) = (items, ProxyCursor.StopIteration) ∧
    Forall2 (yields p K) hs items.
Proof.
  intros Hdb HK Henc p.
  assert (Hp : over b p) by (by constructor).
  pose proof (over_iter_handles b Hb p K Hp) as Hiter.
  assert (Hget : get_handles p K None = iter_handles p K).
  { apply get_handles_unsorted; [done | by apply over_not_None with b|].
    by rewrite (over_is_open b db Hdb), Hopen. }
  rewrite Hiter in Hget.
  destruct (loop_yields p K
              (List.filter (all_accept (predicates p K)) (st_iter_handles b K)))
    as (items & Hloop & Hitems).
  - intros h Hh.
    assert (Hin : h ∈ st_iter_handles b K).
    { apply list_elem_of_In. apply list_elem_of_In, filter_In in Hh. tauto. }
    destruct (coherent_str b Hb K h Hin) as (s & -> & _).
    destruct (proj2 (over_visible b Hb p K s Hp)) as [e He]; [|by eauto].
    eexists. by split.
  - intros h Hh. apply Henc, list_elem_of_In.
    apply list_elem_of_In, filter_In in Hh. tauto.
  - eexists. exists items. split; [exact Hget|]. split; [|done].
    unfold ProxyCursor.iter, get_cursor.
    cbn [ProxyCursor.get_handles ProxyCursor.get_raw].
    by rewrite Hget.
Qed.

End CursorOfUnsortedKinds.

(** * Further properties *)

(** ** A proxy only hides *)

Lemma List_filter_sublist {A} (f : A → bool) (l : list A) :
  List.filter f l `sublist_of` l.
Proof.
  induction l as [|x l IH]; simpl; [constructor|].
  destruct (f x); [by apply sublist_skip | by apply sublist_cons].
Qed.

Lemma py_filter_sublist predicate hs : py_filter predicate hs `sublist_of` hs.
Proof. destruct predicate; apply List_filter_sublist. Qed.

(** X1: Whatever a proxy returns for a lookup by handle or by id, the wrapped
    database returns too, the same entity; and what the proxy enumerates
    is a subsequence, in the same order, of what the wrapped database
    enumerates. *)
Theorem proxy_only_hides sort_objects self db basedb K :
  let p := DbProxy self db basedb in
  (∀ h e, get_from_handle p K h = Ok (Some e) →
          get_from_handle db K h = Ok (Some e)) ∧
  (∀ val e, get_from_gid p K val = Ok (Some e) →
            get_from_gid db K val = Ok (Some e)) ∧
  (∀ hs, iter_handles p K = Ok hs →
         ∃ hs', iter_handles db K = Ok hs' ∧ hs `sublist_of` hs') ∧
  (∀ objs, iter_objects sort_objects p K None = Ok objs →
           ∃ objs', iter_objects sort_objects db K None = Ok objs' ∧
                    objs `sublist_of` objs').
Proof.
  intros p. unfold p. simpl. repeat split.
  - intros h e. destruct (get_from_handle db K h) as [obj|]; simpl;
      [|discriminate].
    intros [= He]. apply gfilter_Some in He as [-> _]. done.
  - intros val e. destruct (get_from_gid db K val) as [obj|]; simpl;
      [|discriminate].
    intros [= He]. apply gfilter_Some in He as [-> _]. done.
  - intros hs. destruct (iter_handles db K) as [hs'|]; simpl; [|discriminate].
    intros [= <-]. eexists. split; [done | apply py_filter_sublist].
  - intros objs.
    destruct (iter_objects sort_objects db K None) as [objs'|]; simpl;
      [|discriminate].
    intros [= <-]. eexists. split; [done | apply List_filter_sublist].
Qed.

Lemma proxy_only_hides_witness :
  iter_handles Demo.private Person = Ok [HStr (lit "B")] ∧
  ∃ hs', iter_handles (DbBase Demo.store) Person = Ok hs' ∧
         [HStr (lit "B")] `sublist_of` hs'.
Proof.
  split; [reflexivity|].
  apply (proj1 (proj2 (proj2 (proxy_only_hides Demo.unsorted
           (Demo.obj Demo.hide_A) (DbBase Demo.store) (DbBase Demo.store)
           Person)))).
  reflexivity.
Defined.

(** ** Stacking commutes and is idempotent *)

Lemma gfilter_comm p q obj :
  gfilter p (gfilter q obj) = gfilter q (gfilter p obj).
Proof.
  destruct p as [p|], q as [q|], obj as [o|]; simpl; try done.
  destruct (q (handle o)) eqn:Hq, (p (handle o)) eqn:Hp; simpl;
    rewrite ?Hq, ?Hp; done.
Qed.

Lemma gfilter_idemp p obj : gfilter p (gfilter p obj) = gfilter p obj.
Proof.
  destruct p as [p|], obj as [o|]; simpl; try done.
  destruct (p (handle o)) eqn:Hp; simpl; by rewrite ?Hp.
Qed.

Lemma List_filter_comm {A} (f g : A → bool) (l : list A) :
  List.filter f (List.filter g l) = List.filter g (List.filter f l).
Proof.
  induction l as [|x l IH]; simpl; [done|].
  destruct (g x) eqn:Hg, (f x) eqn:Hf; simpl; rewrite ?Hg, ?Hf, ?IH; done.
Qed.

Lemma List_filter_idemp {A} (f : A → bool) (l : list A) :
  List.filter f (List.filter f l) = List.filter f l.
Proof.
  induction l as [|x l IH]; simpl; [done|].
  destruct (f x) eqn:Hf; simpl; rewrite ?Hf, ?IH; done.
Qed.

Lemma py_filter_comm p q hs :
  py_filter p (py_filter q hs) = py_filter q (py_filter p hs).
Proof. destruct p, q; apply List_filter_comm. Qed.

(** X2: Two proxies stacked over a database show the same whichever of them
    is the outer one: lookups by handle and by id and both enumerations
    agree. *)
Theorem stacking_commutes sort_objects self1 self2 db bd1 bd2 bd3 bd4 K :
  let p12 := DbProxy self2 (DbProxy self1 db bd1) bd2 in
  let p21 := DbProxy self1 (DbProxy self2 db bd3) bd4 in
  (∀ h, get_from_handle p12 K h = get_from_handle p21 K h) ∧
  (∀ val, get_from_gid p12 K val = get_from_gid p21 K val) ∧
  iter_handles p12 K = iter_handles p21 K ∧
  iter_objects sort_objects p12 K None = iter_objects sort_objects p21 K None.
Proof.
  simpl. repeat split.
  - intros h. destruct (get_from_handle db K h); simpl; [|done].
    f_equal. apply gfilter_comm.
  - intros val. destruct (get_from_gid db K val); simpl; [|done].
    f_equal. apply gfilter_comm.
  - destruct (iter_handles db K); simpl; [|done].
    f_equal. apply py_filter_comm.
  - destruct (iter_objects sort_objects db K None); simpl; [|done].
    f_equal. apply List_filter_comm.
Qed.

(** X3: A proxy stacked on a proxy with the same predicates shows what one of
    them shows. *)
Theorem stacking_idempotent sort_objects self db bd1 bd2 bd3 K :
  let twice := DbProxy self (DbProxy self db bd1) bd2 in
  let once := DbProxy self db bd3 in
  (∀ h, get_from_handle twice K h = get_from_handle once K h) ∧
  (∀ val, get_from_gid twice K val = get_from_gid once K val) ∧
  iter_handles twice K = iter_handles once K ∧
  iter_objects sort_objects twice K None = iter_objects sort_objects once K None.
Proof.
  simpl. repeat split.
  - intros h. destruct (get_from_handle db K h); simpl; [|done].
    f_equal. apply gfilter_idemp.
  - intros val. destruct (get_from_gid db K val); simpl; [|done].
    f_equal. apply gfilter_idemp.
  - destruct (iter_handles db K); simpl; [|done].
    f_equal. destruct (include self K); apply List_filter_idemp.
  - destruct (iter_objects sort_objects db K None); simpl; [|done].
    f_equal. apply List_filter_idemp.
Qed.

Example stacking_commutes_demo :
  iter_handles (DbProxy (Demo.obj Demo.hide_A)
                  (DbProxy (Demo.obj Demo.hide_B) (DbBase Demo.store)
                           (DbBase Demo.store)) (DbBase Demo.store)) Person
  = iter_handles Demo.stacked Person.
Proof. reflexivity. Qed.

(** ** Lookup by id and lookup by handle *)

(** X4: Over a base store where an entity found by id is the one found under
    its own handle, the same holds through any chain of proxies: an
    entity a proxy returns for an id it also returns for the entity's
    handle, so nothing is visible by id and hidden by handle. *)
Theorem gid_lookup_visible_by_handle b d K val e :
  over b d →
  (∀ v o, st_from_gid b K v = Some o →
          st_from_handle b K (handle o) = Some o) →
  get_from_gid d K val = Ok (Some e) →
  get_from_handle d K (handle e) = Ok (Some e).
Proof.
  intros Hd Hb. revert e. induction Hd as [|self db _ IH]; intros e; simpl.
  - intros [= He]. f_equal. by apply Hb with val.
  - destruct (get_from_gid db K val) as [obj|]; simpl; [|discriminate].
    intros [= He]. apply gfilter_Some in He as [-> Hacc].
    rewrite (IH e eq_refl). simpl. f_equal.
    by apply gfilter_Some.
Qed.

Lemma gid_lookup_visible_by_handle_witness :
  (over Demo.store Demo.private ∧
   (∀ v o, st_from_gid Demo.store Person v = Some o →
           st_from_handle Demo.store Person (handle o) = Some o) ∧
   get_from_gid Demo.private Person (lit "I0002") = Ok (Some Demo.person_B)) ∧
  get_from_handle Demo.private Person (handle Demo.person_B)
  = Ok (Some Demo.person_B).
Proof.
  assert (Hgid : ∀ v o, st_from_gid Demo.store Person v = Some o →
                        st_from_handle Demo.store Person (handle o) = Some o).
  { intros v o. unfold Demo.store at 1. cbn [st_from_gid].
    repeat case_decide; intros [= <-]; reflexivity. }
  assert (Hover : over Demo.store Demo.private) by (repeat constructor).
  split; [split; [exact Hover | split; [exact Hgid | reflexivity]]|].
  apply (gid_lookup_visible_by_handle Demo.store Demo.private Person
           (lit "I0002") Demo.person_B Hover Hgid).
  reflexivity.
Defined.

(** ** The two enumerations *)

Lemma py_filter_map_handle predicate objs :
  Forall (λ h, truthy h = true) (handle <$> objs) →
  py_filter predicate (handle <$> objs)
  = handle <$> List.filter (selected predicate) objs.
Proof.
  intros Htruthy. unfold py_filter, selected. destruct predicate as [p|].
  - clear Htruthy. induction objs as [|o objs IH]; [done|].
    rewrite fmap_cons. cbn [List.filter].
    destruct (p (handle o)); rewrite IH; by rewrite ?fmap_cons.
  - induction objs as [|o objs IH]; [done|].
    rewrite fmap_cons in Htruthy |- *.
    apply Forall_cons in Htruthy as [Ho Hrest].
    cbn [List.filter]. rewrite Ho, fmap_cons. f_equal. by apply IH.
Qed.

(** X5: Over a base store whose entity iteration and handle iteration go in
    step (the handles of the entities iterated are the handles
    enumerated, all of them true values), they go in step through any
    chain of proxies: [iter_K_handles()] is the list of the handles of
    [iter_Ks()], in the same order. *)
Theorem enumerations_in_step sort_objects b d K :
  over b d →
  handle <$> st_iter_objects b K None = st_iter_handles b K →
  Forall (λ h, truthy h = true) (st_iter_handles b K) →
  ∃ objs, iter_objects sort_objects d K None = Ok objs ∧
          iter_handles d K = Ok (handle <$> objs).
Proof.
  intros Hd Hstep Htruthy.
  assert (∃ objs, iter_objects sort_objects d K None = Ok objs ∧
                  iter_handles d K = Ok (handle <$> objs) ∧
                  Forall (λ h, truthy h = true) (handle <$> objs))
    as (objs & ? & ? & _); [|by eauto].
  induction Hd as [|self db _ (objs & Hobjs & Hhs & Ht)]; simpl.
  - eexists. split; [done|]. by rewrite Hstep.
  - rewrite Hobjs, Hhs. simpl. eexists. split; [done|].
    rewrite py_filter_map_handle by done. split; [done|].
    eapply Forall_forall. intros h Hin.
    eapply (proj1 (Forall_forall _ _) Ht).
    apply list_elem_of_fmap in Hin as (o & -> & Ho).
    apply list_elem_of_fmap. exists o. split; [done|].
    apply list_elem_of_In. apply list_elem_of_In, filter_In in Ho. tauto.
Qed.

Lemma enumerations_in_step_witness :
  (over Demo.store Demo.stacked ∧
   handle <$> st_iter_objects Demo.store Person None
   = st_iter_handles Demo.store Person ∧
   Forall (λ h, truthy h = true) (st_iter_handles Demo.store Person)) ∧
  ∃ objs, iter_objects Demo.unsorted Demo.stacked Person None = Ok objs ∧
          iter_handles Demo.stacked Person = Ok (handle <$> objs).
Proof.
  assert (Hover : over Demo.store Demo.stacked) by (repeat constructor).
  assert (Ht : Forall (λ h, truthy h = true)
                      (st_iter_handles Demo.store Person))
    by (repeat constructor).
  split; [split; [exact Hover | split; [reflexivity | exact Ht]]|].
  exact (enumerations_in_step Demo.unsorted Demo.store Demo.stacked Person
           Hover eq_refl Ht).
Defined.

(** ** The sort flag *)

(** X6: [sort_handles] reaches the base store for Person and Family only:
    the five other kinds that take the flag return the same list
    whatever it is, the three kinds without the parameter raise
    [TypeError] when it is passed, and for Person and Family leaving the
    flag out is passing [False]. *)
Theorem sort_handles_by_kind self db basedb K flag :
  let p := DbProxy self db basedb in
  (takes_sort_handles K = true → base_sorted K = false →
   get_handles p K (Some flag) = get_handles p K None) ∧
  (takes_sort_handles K = false →
   get_handles p K (Some flag) = Raise TypeError) ∧
  (base_sorted K = true →
   get_handles p K (Some false) = get_handles p K None).
Proof.
  intros p. unfold p. repeat split.
  - intros Htakes Hsorted. cbn [get_handles]. by rewrite Htakes, Hsorted.
  - intros Htakes. cbn [get_handles]. rewrite Htakes.
    by rewrite bool_decide_eq_true_2 by eauto.
  - intros Hsorted. cbn [get_handles].
    by assert (takes_sort_handles K = true) as -> by (by destruct K).
Qed.

Lemma sort_handles_by_kind_witness :
  (takes_sort_handles Source = true ∧ base_sorted Source = false ∧
   get_handles Demo.private Source (Some true)
   = get_handles Demo.private Source None) ∧
  (takes_sort_handles Note = false ∧
   get_handles Demo.private Note (Some true) = Raise TypeError).
Proof.
  split; (split; [reflexivity|]).
  - split; [reflexivity|].
    by apply (proj1 (sort_handles_by_kind (Demo.obj Demo.hide_A)
                       (DbBase Demo.store) (DbBase Demo.store) Source true)).
  - by apply (proj1 (proj2 (sort_handles_by_kind (Demo.obj Demo.hide_A)
                       (DbBase Demo.store) (DbBase Demo.store) Note true))).
Defined.


(** ** Counts *)

Lemma decoded_in_sublist proxied all hs :
  decoded_in proxied all = Ok hs → hs `sublist_of` all.
Proof.
  revert hs. induction all as [|hdl rest IH]; intros hs; simpl.
  - by intros [= <-].
  - destruct (py_str hdl) as [s|]; simpl; [|discriminate].
    destruct (decoded_in proxied rest) as [tl|]; simpl; [|discriminate].
    intros [= <-]. case_decide.
    + by apply sublist_skip, IH.
    + by apply sublist_cons, IH.
Qed.

(** What [get_K_handles()] of a proxy is made of. *)
Lemma get_handles_None_cases self db basedb K hs :
  get_handles (DbProxy self db basedb) K None = Ok hs →
  hs = [] ∨
  (base_sorted K = false ∧ iter_handles (DbProxy self db basedb) K = Ok hs) ∨
  (base_sorted K = true ∧
   ∃ proxied all,
     iter_handles (DbProxy self db basedb) K = Ok proxied ∧
     get_handles basedb K (Some false) = Ok all ∧
     decoded_in (list_to_set proxied) all = Ok hs).
Proof.
  cbn [get_handles].
  rewrite (bool_decide_eq_false_2 (is_Some None)) by (by intros [? ?]).
  rewrite andb_false_r.
  assert (Hopen : (is_open db ≫= λ opened : bool,
             if opened
             then if base_sorted K
                  then iter_handles (DbProxy self db basedb) K ≫= λ proxied,
                       get_handles basedb K (Some (default false None))
                       ≫= λ all, decoded_in (list_to_set proxied) all
                  else iter_handles (DbProxy self db basedb) K
             else Ok []) = Ok hs →
    hs = [] ∨
    (base_sorted K = false ∧ iter_handles (DbProxy self db basedb) K = Ok hs) ∨
    (base_sorted K = true ∧
     ∃ proxied all,
       iter_handles (DbProxy self db basedb) K = Ok proxied ∧
       get_handles basedb K (Some false) = Ok all ∧
       decoded_in (list_to_set proxied) all = Ok hs)).
  { destruct (is_open db) as [[|]|]; cbn -[iter_handles decoded_in get_handles];
      [| intros [= <-]; by left | discriminate].
    destruct (base_sorted K); [|by intros; right; left].
    destruct (iter_handles (DbProxy self db basedb) K) as [proxied|];
      cbn -[decoded_in get_handles]; [|discriminate].
    destruct (get_handles basedb K (Some false)) as [all|] eqn:Hall;
      cbn -[decoded_in]; [|discriminate].
    intros Hdec. right; right. split; [done|]. by exists proxied, all. }
  destruct db; [intros [= <-]; by left | exact Hopen | exact Hopen].
Qed.

(** X7: A proxy never counts more than there is: the number it reports for a
    kind is at most the number of handles the wrapped database enumerates
    and, for Person and Family, at most the length of the base store's
    handle list. *)
Theorem number_of_bounded self db basedb K n :
  get_number_of (DbProxy self db basedb) K = Ok n →
  (∀ hs', iter_handles db K = Ok hs' → base_sorted K = false →
          n ≤ length hs') ∧
  (∀ all, get_handles basedb K (Some false) = Ok all → base_sorted K = true →
          n ≤ length all).
Proof.
  unfold get_number_of.
  destruct (get_handles (DbProxy self db basedb) K None) as [hs|] eqn:Hhs;
    cbn; [|discriminate].
  intros [= <-].
  apply get_handles_None_cases in Hhs
    as [-> | [[HK Hiter] | (HK & proxied & all & Hiter & Hall & Hdec)]].
  - split; intros; simpl; lia.
  - split; [|intros; congruence].
    intros hs' Hhs' _. cbn [iter_handles] in Hiter. rewrite Hhs' in Hiter.
    injection Hiter as <-. apply sublist_length, py_filter_sublist.
  - split; [intros; congruence|].
    intros all' Hall' _. rewrite Hall in Hall'. injection Hall' as <-.
    by eapply sublist_length, decoded_in_sublist.
Qed.

Lemma number_of_bounded_witness :
  get_number_of Demo.private Person = Ok 1 ∧
  (∀ all, get_handles (DbBase Demo.store) Person (Some false) = Ok all →
          base_sorted Person = true → 1 ≤ length all).
Proof.
  split; [reflexivity|].
  apply (proj2 (number_of_bounded (Demo.obj Demo.hide_A) (DbBase Demo.store)
                  (DbBase Demo.store) Person 1 eq_refl)).
Defined.

(** ** The maps *)

Lemma encode_keys_Forall2 hs ks :
  ProxyMap.encode_keys hs = Ok ks →
  Forall2 (λ h k, py_bytes h = Ok k ∧ py_str k = Ok h) hs ks.
Proof.
  revert ks. induction hs as [|h rest IH]; intros ks; simpl.
  - intros [= <-]. constructor.
  - destruct (py_bytes h) as [k|] eqn:Hk; simpl; [|discriminate].
    destruct (ProxyMap.encode_keys rest) as [bs|]; simpl; [|discriminate].
    intros [= <-]. constructor; [|by apply IH].
    split; [done | by apply py_str_py_bytes].
Qed.

Lemma encode_keys_encodable hs :
  (∀ h, h ∈ hs → ∃ key, py_bytes h = Ok key) →
  ∃ ks, ProxyMap.encode_keys hs = Ok ks.
Proof.
  induction hs as [|h rest IH]; intros Henc; simpl; [by eexists|].
  destruct (Henc h) as [k ->]; [by left|].
  destruct IH as [ks ->]; [intros x Hx; apply Henc; by right|].
  simpl. by eexists.
Qed.

(** X8: For a kind other than Person and Family, over an open coherent store
    whose handles encode, the map of a proxy lists one key for each
    handle the proxy enumerates, in order, each key decoding to its
    handle, and the item under each of these handles is the record of
    the entity the filtered lookup finds. *)
Theorem map_keys_and_items b self db K :
  coherent b → st_is_open b = true → over b db →
  base_sorted K = false →
  (∀ h, h ∈ st_iter_handles b K → ∃ key, py_bytes h = Ok key) →
  let p := DbProxy self db (DbBase b) in
  let m := proxy_map p K in
  ∃ hs ks,
    iter_handles p K = Ok hs ∧
    ProxyMap.keys m = Ok ks ∧
    Forall2 (λ h k, py_bytes h = Ok k ∧ py_str k = Ok h) hs ks ∧
    ∀ h, h ∈ hs →
         ∃ e, get_from_handle p K h = Ok (Some e) ∧
              ProxyMap.getitem m h = Ok (to_struct e).
Proof.
  intros Hb Hopen Hdb HK Henc p m.
  assert (Hp : over b p) by (by constructor).
  pose proof (over_iter_handles b Hb p K Hp) as Hiter.
  assert (Hget : get_handles p K None = iter_handles p K).
  { apply get_handles_unsorted; [done | by apply over_not_None with b|].
    by rewrite (over_is_open b db Hdb), Hopen. }
  set (hs := List.filter (all_accept (predicates p K)) (st_iter_handles b K))
    in *.
  assert (Hsub : ∀ h, h ∈ hs → h ∈ st_iter_handles b K).
  { intros h Hh. apply list_elem_of_In. apply list_elem_of_In, filter_In in Hh.
    tauto. }
  destruct (encode_keys_encodable hs) as [ks Hks].
  { intros h Hh. by apply Henc, Hsub. }
  exists hs, ks. split; [done|]. split.
  { unfold ProxyMap.keys, m, proxy_map. cbn [ProxyMap.get_keys].
    rewrite Hget, Hiter. exact Hks. }
  split; [by apply encode_keys_Forall2|].
  intros h Hh.
  destruct (coherent_str b Hb K h (Hsub h Hh)) as (s & -> & _).
  destruct (proj2 (over_visible b Hb p K s Hp)) as [e He]; [by eauto|].
  exists e. split; [done|].
  unfold ProxyMap.getitem, m, proxy_map. cbn [ProxyMap.get_raw].
  unfold get_raw_data. by rewrite He.
Qed.

Lemma map_keys_and_items_witness :
  ∃ hs ks,
    iter_handles Demo.private Event = Ok hs ∧
    ProxyMap.keys (proxy_map Demo.private Event) = Ok ks ∧
    Forall2 (λ h k, py_bytes h = Ok k ∧ py_str k = Ok h) hs ks ∧
    ∀ h, h ∈ hs →
         ∃ e, get_from_handle Demo.private Event h = Ok (Some e) ∧
              ProxyMap.getitem (proxy_map Demo.private Event) h
              = Ok (to_struct e).
Proof.
  apply (map_keys_and_items Demo.store (Demo.obj Demo.hide_A)
           (DbBase Demo.store) Event demo_coherent eq_refl
           (over_base Demo.store) eq_refl).
  intros h Hh. apply list_elem_of_singleton in Hh as ->. by eexists.
Defined.

(** X9: The maps of Person and Family list no key: whenever
    [get_person_handles()] returns a handle, [person_map.keys()] raises
    [TypeError], the handles being [bytes] that [bytes(key, "utf-8")]
    does not take. *)
Theorem sorted_map_keys_raise self db basedb K hs :
  base_sorted K = true →
  get_handles (DbProxy self db basedb) K None = Ok hs →
  ProxyMap.keys (proxy_map (DbProxy self db basedb) K)
  = match hs with [] => Ok [] | _ => Raise TypeError end.
Proof.
  intros HK Hhs. unfold ProxyMap.keys, proxy_map. cbn [ProxyMap.get_keys].
  rewrite Hhs. destruct hs as [|hdl rest]; [done|].
  destruct (get_handles_sorted_bytes self db basedb K None _ hdl HK Hhs)
    as [h Hh]; [by left|].
  cbn [mbind]. simpl. by rewrite (py_str_py_bytes_exclusive hdl h Hh).
Qed.

Lemma sorted_map_keys_raise_witness :
  (base_sorted Person = true ∧
   get_handles Demo.plain Person None
   = Ok [HBytes ["A"%byte]; HBytes ["B"%byte]]) ∧
  ProxyMap.keys (proxy_map Demo.plain Person) = Raise TypeError.
Proof.
  split; [split; reflexivity|].
  exact (sorted_map_keys_raise (Demo.obj Demo.include_all) (DbBase Demo.store)
           (DbBase Demo.store) Person _ eq_refl eq_refl).
Defined.

(** ** What [__init__] leaves in the instance *)

Lemma add_maps_other (d : gmap string pyattr) name :
  name ∉ map_attrs → add_maps d !! name = d !! name.
Proof.
  intros Hname. unfold add_maps.
  repeat (rewrite lookup_insert_ne;
          [|intros <-; apply Hname; unfold map_attrs; set_solver]).
  done.
Qed.

Lemma add_maps_map (d : gmap string pyattr) K :
  has_map K = true → add_maps d !! map_name K = Some (PyProxyMap K).
Proof.
  intros HK. unfold add_maps.
  destruct K; try discriminate HK; cbn;
    repeat (rewrite lookup_insert_ne by done); by rewrite lookup_insert_eq.
Qed.

Lemma copied_not_map name : name ∈ copied_attrs → name ∉ map_attrs.
Proof.
  intros Hin. apply list_elem_of_In in Hin.
  assert (Hall : forallb (λ n, bool_decide (n ∉ map_attrs)) copied_attrs = true)
    by (vm_compute; reflexivity).
  rewrite forallb_forall in Hall. apply Hall in Hin.
  by apply bool_decide_eq_true_1 in Hin.
Qed.

Lemma base_getattr_copied b name :
  name ∈ copied_attrs →
  base_getattr b name = match st_attrs b name with
                        | Some v => Ok (PyValue v)
                        | None => Raise AttributeError
                        end.
Proof.
  intros Hname. apply list_elem_of_In in Hname.
  assert (Hall : forallb (λ n, bool_decide (kind_of_from_handle n = None))
                   copied_attrs = true) by (vm_compute; reflexivity).
  rewrite forallb_forall in Hall. apply Hall in Hname.
  apply bool_decide_eq_true_1 in Hname.
  unfold base_getattr. by rewrite Hname.
Qed.

Lemma bookmarks_attr_copied K attr :
  bookmarks_attr K = Some attr → attr ∈ copied_attrs.
Proof.
  destruct K; intros [= <-]; apply (bool_decide_eq_true_1 _);
    vm_compute; reflexivity.
Qed.

Section Built.

Variable writes : string → option pytype.   (* [DbWriteBase.__dict__] *)
Variable inherited : string → bool.         (* the names of the other classes *)

Lemma copy_attrs_other db names (d d' : gmap string pyattr) name :
  copy_attrs writes inherited db names d = Ok d' →
  name ∉ names → d' !! name = d !! name.
Proof.
  revert d. induction names as [|n rest IH]; intros d; simpl.
  - by intros [= <-].
  - destruct (getattr writes inherited db n).1 as [v|]; simpl; [|discriminate].
    intros Hrest Hname. apply not_elem_of_cons in Hname as [Hn Hname].
    rewrite (IH _ Hrest Hname). by apply lookup_insert_ne.
Qed.

Lemma copy_attrs_copied db names (d d' : gmap string pyattr) name :
  copy_attrs writes inherited db names d = Ok d' →
  name ∈ names →
  ∃ v, (getattr writes inherited db name).1 = Ok v ∧ d' !! name = Some v.
Proof.
  revert d. induction names as [|n rest IH]; intros d; simpl.
  - intros _ Hin. by apply elem_of_nil in Hin.
  - destruct (getattr writes inherited db n).1 as [v|] eqn:Hv; simpl;
      [|discriminate].
    intros Hrest Hin.
    destruct (decide (name ∈ rest)) as [Hr|Hr]; [by apply IH with (<[n:=v]> d)|].
    apply elem_of_cons in Hin as [->|Hin]; [|done].
    exists v. split; [done|].
    rewrite (copy_attrs_other _ _ _ _ _ Hrest Hr). apply lookup_insert_eq.
Qed.

Lemma copy_attrs_succeeds db names (d : gmap string pyattr) :
  (∀ name, name ∈ names → ∃ v, (getattr writes inherited db name).1 = Ok v) →
  ∃ d', copy_attrs writes inherited db names d = Ok d'.
Proof.
  revert d. induction names as [|n rest IH]; intros d Hall; simpl;
    [by eexists|].
  destruct (Hall n) as [v ->]; [by left|]. simpl.
  apply IH. intros name Hname. apply Hall. by right.
Qed.

(** The instance [__init__] makes: the wrapped database, the store under
    it, and a [__dict__] that holds the copied attributes with the values
    the wrapped database gave, the maps, and nothing else but the table
    registry. *)
Lemma init_dict incl db p :
  init writes inherited incl db = Ok p →
  ∃ self, p = DbProxy self db (innermost db) ∧
    include self = incl ∧
    (∀ name, name ∈ copied_attrs →
       ∃ v, (getattr writes inherited db name).1 = Ok v ∧
            dict self !! name = Some v) ∧
    (∀ K, has_map K = true → dict self !! map_name K = Some (PyProxyMap K)) ∧
    (∀ name, name ∉ copied_attrs → name ∉ map_attrs →
             dict self !! name = None).
Proof.
  unfold init.
  destruct (copy_attrs writes inherited db copied_attrs ∅) as [d|] eqn:Hd;
    simpl; [|discriminate].
  intros [= <-]. eexists. split; [reflexivity|]. split; [done|]. simpl.
  split; [|split].
  - intros name Hname.
    destruct (copy_attrs_copied _ _ _ _ name Hd Hname) as (v & Hv & Hlook).
    exists v. split; [done|]. rewrite add_maps_other; [done|].
    by apply copied_not_map.
  - intros K HK. by apply add_maps_map.
  - intros name Hc Hm. rewrite add_maps_other by done.
    by rewrite (copy_attrs_other _ _ _ _ _ Hd Hc).
Qed.

Lemma built_innermost p : built writes inherited p → ∃ b, innermost p = DbBase b.
Proof.
  induction 1 as [b|incl db p _ [b Hb] Hinit]; [by exists b|].
  apply init_dict in Hinit as (self & -> & _). by exists b.
Qed.

(** The value of a copied attribute is, through a chain of any length,
    the one the base store holds. *)
Lemma built_copied p b name :
  built writes inherited p → innermost p = DbBase b →
  name ∈ copied_attrs →
  getattr writes inherited p name = (base_getattr b name, p).
Proof.
  intros Hp. revert b. induction Hp as [b'|incl db p _ IH Hinit]; intros b.
  - by intros [= ->].
  - apply init_dict in Hinit as (self & -> & _ & Hcopied & _).
    intros Hinner Hname. simpl in Hinner.
    destruct (Hcopied name Hname) as (v & Hv & Hlook).
    rewrite (getattr_defined writes inherited self db (innermost db) name v).
    + f_equal. rewrite <- Hv. by rewrite (IH b Hinner Hname).
    + unfold defined. by rewrite Hlook.
Qed.

(** A name that neither the proxy class nor [__init__] binds, that the
    other classes do not have and that is not a write method, is looked
    up in the base store, through a chain of any length. *)
Lemma built_forwards p b name :
  built writes inherited p → innermost p = DbBase b →
  name ∉ ["db"; "basedb"] ++ ProxyDbBase_dict ++ copied_attrs ++ map_attrs →
  inherited name = false →
  name ≠ "readonly" →
  is_get_unfiltered name = false →
  is_write_method writes name = false →
  getattr writes inherited p name = (base_getattr b name, p).
Proof.
  intros Hp. revert b. induction Hp as [b'|incl db p _ IH Hinit]; intros b.
  - by intros [= ->].
  - apply init_dict in Hinit as (self & -> & _ & _ & _ & Hother).
    intros Hinner Hname Hinh Hro Hunf Hwrite. simpl in Hinner.
    rewrite !not_elem_of_app in Hname.
    destruct Hname as (Hfields & Hclass & Hcopied & Hmaps).
    assert (Hdef : defined inherited self name = None).
    { unfold defined. rewrite (Hother name Hcopied Hmaps).
      rewrite (bool_decide_eq_false_2 _ Hfields).
      rewrite (bool_decide_eq_false_2 _ Hclass). by rewrite Hinh. }
    cbn [getattr]. rewrite Hdef, (bool_decide_eq_false_2 _ Hro), Hunf, Hwrite.
    rewrite (IH b); try done. by rewrite !not_elem_of_app.
Qed.

(** X10: On a proxy [__init__] built over a chain of such proxies, the map
    attribute of a kind that has one is the proxy's own [ProxyMap]; for
    Citation and Tag, which have none, the lookup of [citation_map] or
    [tag_map] is forwarded down the chain and gives what the base store
    holds under that name, behind every predicate. *)
Theorem maps_of_built_proxy incl db b p K :
  built writes inherited db → innermost db = DbBase b →
  init writes inherited incl db = Ok p →
  (has_map K = true →
   getattr writes inherited p (map_name K) = (Ok (PyProxyMap K), p)) ∧
  (has_map K = false →
   inherited (map_name K) = false →
   is_write_method writes (map_name K) = false →
   getattr writes inherited p (map_name K)
   = (match st_attrs b (map_name K) with
      | Some v => Ok (PyValue v)
      | None => Raise AttributeError
      end, p)).
Proof.
  intros Hdb Hinner Hinit. split.
  - intros HK. apply init_dict in Hinit as (self & -> & _ & _ & Hmap & _).
    apply getattr_defined. unfold defined. by rewrite (Hmap K HK).
  - intros HK Hinh Hwrite.
    assert (Hp : built writes inherited p) by (by eapply built_proxy).
    assert (Hpb : innermost p = DbBase b).
    { by apply init_dict in Hinit as (self & -> & _). }
    rewrite (built_forwards p b (map_name K) Hp Hpb); try done.
    + by destruct K.
    + destruct K; try discriminate HK;
        apply (bool_decide_eq_true_1 _); vm_compute; reflexivity.
    + by destruct K.
    + by destruct K.
Qed.

(** X11: The bookmarks a proxy returns are the base store's, through a chain
    of any length: [__init__] copies them and no predicate is applied to
    them. *)
Theorem bookmarks_of_base p b K attr :
  built writes inherited p → innermost p = DbBase b →
  bookmarks_attr K = Some attr →
  get_bookmarks writes inherited p attr
  = match st_attrs b attr with
    | Some v => Ok (PyValue v)
    | None => Raise AttributeError
    end.
Proof.
  intros Hp Hinner Hattr. unfold get_bookmarks.
  apply bookmarks_attr_copied in Hattr.
  rewrite (built_copied p b attr Hp Hinner Hattr).
  by apply base_getattr_copied.
Qed.

(** X12: [__init__] needs a database: on [None] it raises [AttributeError];
    on a base store it succeeds exactly when the store holds the ten
    attributes it copies. *)
Theorem init_needs_attributes incl :
  init writes inherited incl DbNone = Raise AttributeError ∧
  ∀ b, (∃ p, init writes inherited incl (DbBase b) = Ok p) ↔
       ∀ name, name ∈ copied_attrs → is_Some (st_attrs b name).
Proof.
  split; [reflexivity|]. intros b.
  assert (Hbase : ∀ name, name ∈ copied_attrs →
            (getattr writes inherited (DbBase b) name).1
            = match st_attrs b name with
              | Some v => Ok (PyValue v)
              | None => Raise AttributeError
              end).
  { intros name Hname. by apply base_getattr_copied. }
  split.
  - intros [p Hp] name Hname.
    apply init_dict in Hp as (self & _ & _ & Hcopied & _).
    destruct (Hcopied name Hname) as (v & Hv & _).
    rewrite (Hbase name Hname) in Hv. by destruct (st_attrs b name).
  - intros Hall. unfold init.
    destruct (copy_attrs_succeeds (DbBase b) copied_attrs ∅) as [d ->].
    + intros name Hname. rewrite (Hbase name Hname).
      destruct (Hall name Hname) as [v ->]. by eexists.
    + by eexists.
Qed.

(** X13: A proxy can always be wrapped again: [__init__] over what
    [__init__] returned succeeds, the new proxy has the same store under
    it, and the attributes it copies are those of the proxy it wraps. *)
Theorem init_stackable incl incl' db p :
  init writes inherited incl db = Ok p →
  ∃ self', init writes inherited incl' p = Ok (DbProxy self' p (innermost db)) ∧
           include self' = incl' ∧
           ∀ name, name ∈ copied_attrs →
                   (getattr writes inherited (DbProxy self' p (innermost db))
                            name).1
                   = (getattr writes inherited p name).1.
Proof.
  intros Hp.
  destruct (init_dict incl db p Hp) as (self & -> & _ & Hcopied & _).
  assert (∃ p', init writes inherited incl' (DbProxy self db (innermost db))
                = Ok p') as [p' Hp'].
  { unfold init.
    destruct (copy_attrs_succeeds (DbProxy self db (innermost db))
                copied_attrs ∅) as [d ->]; [|by eexists].
    intros name Hname. destruct (Hcopied name Hname) as (v & _ & Hlook).
    exists v.
    rewrite (getattr_defined writes inherited self db (innermost db) name v);
      [done|].
    unfold defined. by rewrite Hlook. }
  destruct (init_dict incl' _ p' Hp') as (self' & -> & Hincl & Hcopied' & _).
  exists self'. split; [exact Hp'|]. split; [done|].
  intros name Hname. destruct (Hcopied' name Hname) as (v & Hv & Hlook).
  cbn [innermost] in *.
  rewrite (getattr_defined writes inherited self' _ (innermost db) name v).
  - by rewrite Hv.
  - unfold defined. by rewrite Hlook.
Qed.

Variable include_of : Entity → bool.
Variable call_member : string → hval → result (option Entity).

(** X14: [include_something] of the base class works on the object it is
    given; called with a handle alone it asks for
    [get_unfiltered_something], which resolves to
    [get_something_from_handle] of the base store: where the store has
    no such attribute the call raises [AttributeError]. *)
Theorem include_something_needs_obj incl db b p h :
  innermost db = DbBase b →
  init writes inherited incl db = Ok p →
  inherited "get_unfiltered_something" = false →
  st_attrs b "get_something_from_handle" = None →
  include_something writes inherited include_of call_member p h None
  = (Raise AttributeError, p) ∧
  ∀ o, include_something writes inherited include_of call_member p h (Some o)
       = (Ok (include_of o), p).
Proof.
  intros Hinner Hinit Hinh Hnone. split; [|done].
  destruct (init_dict incl db p Hinit) as (self & -> & _ & _ & _ & Hother).
  assert (Hdef : defined inherited self "get_unfiltered_something" = None).
  { apply (unfiltered_not_defined writes inherited); [done| |done].
    apply Hother; apply (bool_decide_eq_true_1 _); vm_compute; reflexivity. }
  unfold include_something. cbn [getattr]. rewrite Hdef, Hinner.
  cbn. unfold base_getattr.
  change (kind_of_from_handle (from_handle_name "something")) with (@None Kind).
  change (from_handle_name "something") with "get_something_from_handle".
  by rewrite Hnone.
Qed.

End Built.

Lemma demo_built_private : built Demo.write_dict Demo.no_inherited Demo.private.
Proof.
  apply (built_proxy _ _ Demo.hide_A (DbBase Demo.store));
    [apply built_base | exact init_private].
Qed.

Lemma maps_of_built_proxy_witness :
  getattr Demo.write_dict Demo.no_inherited Demo.stacked "person_map"
  = (Ok (PyProxyMap Person), Demo.stacked) ∧
  getattr Demo.write_dict Demo.no_inherited Demo.stacked "citation_map"
  = (Raise AttributeError, Demo.stacked).
Proof.
  split.
  - exact (proj1 (maps_of_built_proxy Demo.write_dict Demo.no_inherited
                    Demo.hide_B Demo.private Demo.store Demo.stacked Person
                    demo_built_private eq_refl init_stacked) eq_refl).
  - exact (proj2 (maps_of_built_proxy Demo.write_dict Demo.no_inherited
                    Demo.hide_B Demo.private Demo.store Demo.stacked Citation
                    demo_built_private eq_refl init_stacked)
                 eq_refl eq_refl eq_refl).
Defined.

Lemma bookmarks_of_base_witness :
  get_bookmarks Demo.write_dict Demo.no_inherited Demo.private "repo_bookmarks"
  = Ok (PyValue (VObject 1)).
Proof.
  exact (bookmarks_of_base Demo.write_dict Demo.no_inherited Demo.private
           Demo.store Repository "repo_bookmarks" demo_built_private
           eq_refl eq_refl).
Defined.

Lemma init_stackable_witness :
  ∃ self',
    init Demo.write_dict Demo.no_inherited Demo.hide_B Demo.private
    = Ok (DbProxy self' Demo.private (DbBase Demo.store)) ∧
    include self' = Demo.hide_B ∧
    ∀ name, name ∈ copied_attrs →
      (getattr Demo.write_dict Demo.no_inherited
               (DbProxy self' Demo.private (DbBase Demo.store)) name).1
      = (getattr Demo.write_dict Demo.no_inherited Demo.private name).1.
Proof.
  exact (init_stackable Demo.write_dict Demo.no_inherited Demo.hide_A
           Demo.hide_B (DbBase Demo.store) Demo.private init_private).
Defined.

Lemma include_something_needs_obj_witness :
  include_something Demo.write_dict Demo.no_inherited (λ _, true)
    (λ _ _, Raise TypeError) Demo.private (HStr (lit "A")) None
  = (Raise AttributeError, Demo.private).
Proof.
  exact (proj1 (include_something_needs_obj Demo.write_dict Demo.no_inherited
                  (λ _, true) (λ _ _, Raise TypeError) Demo.hide_A
                  (DbBase Demo.store) Demo.store Demo.private
                  (HStr (lit "A")) eq_refl init_private eq_refl eq_refl)).
Defined.

(** ** Lookups and the cache *)

Section Cache.

Variable writes : string → option pytype.   (* [DbWriteBase.__dict__] *)
Variable inherited : string → bool.         (* the names of the other classes *)

(** The value of a lookup on a proxy, in terms of the lookups it makes. *)
Lemma getattr_value self db basedb name :
  (getattr writes inherited (DbProxy self db basedb) name).1
  = match defined inherited self name with
    | Some v => Ok v
    | None =>
      if bool_decide (name = "readonly") then Ok (PyValue (VBool true))
      else if is_get_unfiltered name then
        match split_underscore name !! 2%nat with
        | None => Raise IndexError
        | Some word =>
          (getattr writes inherited basedb (from_handle_name word)).1
        end
      else if is_write_method writes name then Raise AttributeError
      else (getattr writes inherited db name).1
    end.
Proof.
  cbn [getattr]. destruct (defined inherited self name); [done|].
  case_bool_decide; [done|].
  destruct (is_get_unfiltered name).
  - destruct (split_underscore name !! 2%nat) as [word|]; [|done].
    by destruct (getattr writes inherited basedb (from_handle_name word))
      as [[attr|e] basedb'].
  - destruct (is_write_method writes name); [done|].
    by destruct (getattr writes inherited db name).
Qed.

Lemma defined_setattr_ne self name attr n :
  n ≠ name →
  defined inherited (setattr self name attr) n = defined inherited self n.
Proof.
  intros Hn. unfold defined, setattr. cbn [dict].
  by rewrite lookup_insert_ne.
Qed.

Lemma defined_setattr self name attr :
  defined inherited (setattr self name attr) name = Some attr.
Proof. unfold defined, setattr. cbn [dict]. by rewrite lookup_insert_eq. Qed.

(** X15: A lookup may cache an accessor in the instance, and that never shows:
    after the lookup of any name, the lookup of every name gives what it
    gave before, and repeating the lookup changes nothing more. *)
Theorem lookup_stable d name n :
  let d' := (getattr writes inherited d name).2 in
  (getattr writes inherited d' n).1 = (getattr writes inherited d n).1 ∧
  (getattr writes inherited d' name).2 = d'.
Proof.
  revert name n.
  induction d as [|s|self db IHdb basedb IHbasedb]; intros name n;
    [done | done |].
  cbn zeta. set (d := DbProxy self db basedb).
  assert (Hstay : ∀ r, getattr writes inherited d name = (r, d) →
            (getattr writes inherited (getattr writes inherited d name).2 n).1
            = (getattr writes inherited d n).1 ∧
            (getattr writes inherited (getattr writes inherited d name).2
                     name).2
            = (getattr writes inherited d name).2).
  { intros r Hr. rewrite Hr. cbn [snd]. by rewrite Hr. }
  destruct (defined inherited self name) as [v|] eqn:Hdef.
  { apply (Hstay (Ok v)). by apply getattr_defined. }
  destruct (decide (name = "readonly")) as [Hro|Hro].
  { apply (Hstay (Ok (PyValue (VBool true)))). unfold d. cbn [getattr].
    by rewrite Hdef, bool_decide_eq_true_2. }
  destruct (is_get_unfiltered name) eqn:Hunf.
  - destruct (split_underscore name !! 2%nat) as [word|] eqn:Hword.
    2:{ apply (Hstay (Raise IndexError)). unfold d. cbn [getattr].
        by rewrite Hdef, bool_decide_eq_false_2, Hunf, Hword. }
    destruct (IHbasedb (from_handle_name word) (from_handle_name word))
      as [Hsame Hrep].
    destruct (getattr writes inherited basedb (from_handle_name word))
      as [[attr|e] basedb'] eqn:Hbase; cbn [fst snd] in *.
    + assert (Hd : getattr writes inherited d name
                   = (Ok attr, DbProxy (setattr self name attr) db basedb')).
      { unfold d. cbn [getattr].
        by rewrite Hdef, bool_decide_eq_false_2, Hunf, Hword, Hbase. }
      rewrite Hd. cbn [snd].
      pose proof (getattr_defined writes inherited _ db basedb' name attr
                    (defined_setattr self name attr)) as Hd'.
      split; [|by rewrite Hd'].
      destruct (decide (n = name)) as [->|Hn]; [by rewrite Hd', Hd|].
      unfold d. rewrite !getattr_value, (defined_setattr_ne self name attr n Hn).
      destruct (defined inherited self n); [done|].
      case_bool_decide; [done|].
      destruct (is_get_unfiltered n); [|done].
      destruct (split_underscore n !! 2%nat) as [w|]; [|done].
      destruct (IHbasedb (from_handle_name word) (from_handle_name w))
        as [Hw _].
      rewrite Hbase in Hw. exact Hw.
    + assert (Hd : getattr writes inherited d name
                   = (Raise e, DbProxy self db basedb')).
      { unfold d. cbn [getattr].
        by rewrite Hdef, bool_decide_eq_false_2, Hunf, Hword, Hbase. }
      rewrite Hd. cbn [snd]. split.
      * unfold d. rewrite !getattr_value.
        destruct (defined inherited self n); [done|].
        case_bool_decide; [done|].
        destruct (is_get_unfiltered n); [|done].
        destruct (split_underscore n !! 2%nat) as [w|]; [|done].
        destruct (IHbasedb (from_handle_name word) (from_handle_name w))
          as [Hw _].
        rewrite Hbase in Hw. exact Hw.
      * cbn [getattr].
        rewrite Hdef, bool_decide_eq_false_2, Hunf, Hword by done.
        destruct (getattr writes inherited basedb' (from_handle_name word))
          as [[attr'|e'] basedb''] eqn:Hbase'; cbn [fst snd] in *;
          [discriminate Hsame|]. by rewrite Hrep.
  - destruct (is_write_method writes name) eqn:Hwrite.
    { apply (Hstay (Raise AttributeError)). unfold d. cbn [getattr].
      by rewrite Hdef, bool_decide_eq_false_2, Hunf, Hwrite. }
    destruct (IHdb name name) as [_ Hrep].
    destruct (getattr writes inherited db name) as [r db'] eqn:Hdb;
      cbn [fst snd] in *.
    assert (Hd : getattr writes inherited d name = (r, DbProxy self db' basedb)).
    { unfold d. cbn [getattr].
      by rewrite Hdef, bool_decide_eq_false_2, Hunf, Hwrite, Hdb. }
    rewrite Hd. cbn [snd]. split.
    + unfold d. rewrite !getattr_value.
      destruct (defined inherited self n); [done|].
      case_bool_decide; [done|].
      destruct (is_get_unfiltered n); [done|].
      destruct (is_write_method writes n); [done|].
      destruct (IHdb name n) as [Hn _]. rewrite Hdb in Hn. exact Hn.
    + cbn [getattr].
      rewrite Hdef, bool_decide_eq_false_2, Hunf, Hwrite by done.
      destruct (getattr writes inherited db' name) as [r' db''].
      cbn [snd] in *. by rewrite Hrep.
Qed.

End Cache.

(** ** The default person *)

(** X16: [get_default_person] goes down the chain to the base store and no
    predicate is applied to what comes back: the proxy hands out the
    default person of the base store also when its lookup by handle
    hides that person. *)
Theorem default_person_unfiltered default_person b d :
  over b d →
  get_default_person default_person d = Ok (default_person b) ∧
  ∀ e s, coherent b → default_person b = Some e → handle e = HStr s →
         all_accept (predicates d Person) (HStr s) = false →
         get_default_person default_person d = Ok (Some e) ∧
         get_from_handle d Person (handle e) = Ok None.
Proof.
  intros Hd.
  assert (Hdef : get_default_person default_person d = Ok (default_person b)).
  { induction Hd; [done | by simpl]. }
  split; [done|]. intros e s Hb He Hs Hacc. rewrite Hdef, He, Hs.
  split; [done|]. rewrite (over_get_from_handle b Hb d Person s Hd).
  by rewrite Hacc.
Qed.

Lemma default_person_unfiltered_witness :
  get_default_person (λ _, Some Demo.person_A) Demo.private
  = Ok (Some Demo.person_A) ∧
  get_from_handle Demo.private Person (handle Demo.person_A) = Ok None.
Proof.
  exact (proj2 (default_person_unfiltered (λ _, Some Demo.person_A)
                  Demo.store Demo.private
                  (over_proxy Demo.store _ _ (over_base Demo.store)))
               Demo.person_A (lit "A") demo_coherent eq_refl eq_refl eq_refl).
Defined.

(** ** The cursor of the kinds that list [str] handles *)

(** X17: For a kind other than Person and Family, over an open coherent store
    whose handles encode, iterating the cursor of a proxy runs to its
    end and yields one pair for each handle the proxy enumerates, in
    order: a key that decodes to the handle, and the raw record the
    proxy gives for the handle. *)
Theorem cursor_of_str_handles b self db K :
  coherent b → st_is_open b = true → over b db →
  base_sorted K = false →
  (∀ h, h ∈ st_iter_handles b K → ∃ key, py_bytes h = Ok key) →
  let p := DbProxy self db (DbBase b) in
  ∃ hs items,
    iter_handles p K = Ok hs ∧
    ProxyCursor.iter (get_cursor p K) = (items, ProxyCursor.StopIteration) ∧
    Forall2 (λ h item, py_str item.1 = Ok h ∧
                       get_raw_data p K h = Ok item.2) hs items.
Proof.
  intros Hb Hopen Hdb HK Henc. cbn zeta.
  destruct (unsorted_cursor_yields b Hb Hopen self db K Hdb HK Henc)
    as (hs & items & Hhs & Hiter & Hitems).
  exists hs, items. split; [|split; [done|]].
  - rewrite <- Hhs. symmetry.
    apply get_handles_unsorted; [done | by apply over_not_None with b|].
    by rewrite (over_is_open b db Hdb), Hopen.
  - eapply Forall2_impl; [exact Hitems|].
    intros h item [Hkey (e & He & Hraw)]. split.
    + by apply py_str_py_bytes.
    + unfold get_raw_data. rewrite He. simpl. by rewrite Hraw.
Qed.

Lemma cursor_of_str_handles_witness :
  ∃ hs items,
    iter_handles Demo.private Event = Ok hs ∧
    ProxyCursor.iter (get_cursor Demo.private Event)
    = (items, ProxyCursor.StopIteration) ∧
    Forall2 (λ h item, py_str item.1 = Ok h ∧
                       get_raw_data Demo.private Event h = Ok item.2)
            hs items.
Proof.
  apply (cursor_of_str_handles Demo.store (Demo.obj Demo.hide_A)
           (DbBase Demo.store) Event demo_coherent eq_refl
           (over_base Demo.store) eq_refl).
  intros h Hh. apply list_elem_of_singleton in Hh as ->. by eexists.
Defined.

(** ** The table registry *)

Lemma item_tables K : item tables (table_name K) = Some (scheme K).
Proof. by destruct K. Qed.

(** X18: [get_table_func]: without a table it lists the ten tables in the
    order they are written; an unknown table is a [KeyError], with or
    without a function; the table of a kind holds the methods the class
    has for the kind by its naming scheme, except that Tag has no lookup
    by id; a function the table does not hold is left to the parent
    class; and every method the registry names is a method of
    [ProxyDbBase]. *)
Theorem get_table_func_registry :
  (∀ func, get_table_func None func = TableNames (table_name <$>
     [Person; Family; Source; Citation; Event; Media; Place; Repository;
      Note; Tag])) ∧
  (∀ table func, (∀ K, table ≠ table_name K) →
                 get_table_func (Some table) func = KeyError) ∧
  (∀ K, get_table_func (Some (table_name K)) None = Table (scheme K)) ∧
  (∀ K func,
     get_table_func (Some (table_name K)) (Some func)
     = match item (scheme K) func with
       | Some e => Entry e
       | None => Super (table_name K) func
       end) ∧
  (∀ K func name, item (scheme K) func = Some (BoundMethod name) →
                  name ∈ ProxyDbBase_dict).
Proof.
  split; [done|]. split; [|split; [|split]].
  - intros table func Hne.
    assert (Hnone : item tables table = None).
    { unfold tables. cbn [item].
      repeat (case_decide as Heq;
              [ exfalso;
                first [ exact (Hne Person (eq_sym Heq))
                      | exact (Hne Family (eq_sym Heq))
                      | exact (Hne Source (eq_sym Heq))
                      | exact (Hne Citation (eq_sym Heq))
                      | exact (Hne Event (eq_sym Heq))
                      | exact (Hne Media (eq_sym Heq))
                      | exact (Hne Place (eq_sym Heq))
                      | exact (Hne Repository (eq_sym Heq))
                      | exact (Hne Note (eq_sym Heq))
                      | exact (Hne Tag (eq_sym Heq)) ]
              | clear Heq ]).
      done. }
    unfold get_table_func. rewrite Hnone. by destruct func.
  - intros K. unfold get_table_func. by rewrite item_tables.
  - intros K func. unfold get_table_func. by rewrite item_tables.
  - intros K func name Hitem.
    assert (Hin : In (func, BoundMethod name) (scheme K)).
    { revert Hitem. unfold scheme. cbn [item].
      repeat (case_decide as Heq;
              [subst func; intros [= <-]; simpl; tauto | clear Heq]).
      done. }
    assert (Hall : forallb (λ K, forallb (λ fe,
                     match fe.2 with
                     | BoundMethod m => bool_decide (m ∈ ProxyDbBase_dict)
                     | _ => true
                     end) (scheme K)) all_kinds = true)
      by (vm_compute; reflexivity).
    rewrite forallb_forall in Hall.
    assert (HK : In K all_kinds) by (destruct K; simpl; tauto).
    specialize (Hall K HK). rewrite forallb_forall in Hall.
    specialize (Hall _ Hin).
    by apply bool_decide_eq_true_1 in Hall.
Qed.

(** ** The initial person through a chain *)

(** X19: Through a chain of proxies of any length over a coherent store,
    [find_initial_person] returns the initial person of the base store
    exactly when the store finds a person under that handle and every
    predicate of the chain accepts the handle; otherwise it returns
    [None]. *)
Theorem initial_person_through_chain b self db e s :
  coherent b → over b db →
  st_find_initial_person b = Some e → handle e = HStr s →
  let p := DbProxy self db (DbBase b) in
  find_initial_person p
  = Ok (if all_accept (predicates p Person) (HStr s)
           && bool_decide (is_Some (st_from_handle b Person (HStr s)))
        then Some e else None).
Proof.
  intros Hb Hdb He Hs. cbn zeta. cbn [find_initial_person predicates].
  rewrite He. cbn [mbind]. simpl. unfold has_handle.
  rewrite Hs, (over_get_from_handle b Hb db Person s Hdb).
  cbn [all_accept forallb]. fold (all_accept (predicates db Person) (HStr s)).
  destruct (all_accept (predicates db Person) (HStr s)); simpl.
  - destruct (st_from_handle b Person (HStr s)) as [e'|] eqn:He'.
    + rewrite (bool_decide_eq_true_2 (is_Some (Some e'))) by eauto.
      rewrite andb_true_r.
      pose proof (coherent_handle b Hb Person s e' He') as Hh.
      destruct (include self Person) as [f|]; simpl; [|done].
      rewrite Hh. by destruct (f (HStr s)).
    + rewrite (bool_decide_eq_false_2 (is_Some None)) by (by intros [? ?]).
      rewrite andb_false_r.
      by destruct (include self Person).
  - rewrite andb_false_r. simpl. by destruct (include self Person).
Qed.

Lemma initial_person_through_chain_witness :
  find_initial_person Demo.stacked = Ok None ∧
  find_initial_person Demo.plain = Ok (Some Demo.person_A).
Proof.
  split.
  - exact (initial_person_through_chain Demo.store (Demo.obj Demo.hide_B)
             Demo.private Demo.person_A (lit "A") demo_coherent
             (over_proxy Demo.store _ _ (over_base Demo.store))
             eq_refl eq_refl).
  - exact (initial_person_through_chain Demo.store (Demo.obj Demo.include_all)
             (DbBase Demo.store) Demo.person_A (lit "A") demo_coherent
             (over_base Demo.store) eq_refl eq_refl).
Defined.

(** ** The Traditional-Chinese date handler *)

Import DateZH_TW.

(** *** Tuples *)

Lemma getitem_in_range {A} (t : list A) (i : Z) :
  (- Z.of_nat (length t) ≤ i < Z.of_nat (length t))%Z →
  ∃ x, getitem t i = Ok x.
Proof.
  intros Hi. unfold getitem.
  destruct (Z.ltb_spec i 0).
  - destruct (Z.ltb_spec (i + Z.of_nat (length t)) 0); [lia|].
    destruct (lookup_lt_is_Some_2 t (Z.to_nat (i + Z.of_nat (length t))))
      as [x ->]; [lia | by eexists].
  - destruct (Z.ltb_spec i 0); [lia|].
    destruct (lookup_lt_is_Some_2 t (Z.to_nat i)) as [x ->];
      [lia | by eexists].
Qed.

Lemma getitem_out_of_range {A} (t : list A) (i : Z) :
  ¬ (- Z.of_nat (length t) ≤ i < Z.of_nat (length t))%Z →
  getitem t i = Raise IndexError.
Proof.
  intros Hi. unfold getitem.
  destruct (Z.ltb_spec i 0).
  - destruct (Z.ltb_spec (i + Z.of_nat (length t)) 0); [done | lia].
  - destruct (Z.ltb_spec i 0); [lia|].
    rewrite (lookup_ge_None_2 t (Z.to_nat i)); [done | lia].
Qed.

(** *** The month names *)

Lemma setitem_allocated (h : gmap ref (gmap str Z)) d o key value :
  h !! d = Some o → setitem h d key value = <[d := <[key := value]> o]> h.
Proof.
  intros Hd. unfold setitem, heap in *. apply map_eq. intros r.
  destruct (decide (r = d)) as [->|Hr].
  - by rewrite lookup_alter_eq, lookup_insert_eq, Hd.
  - by rewrite lookup_alter_ne, lookup_insert_ne.
Qed.

Lemma foldl_setitem (h : gmap ref (gmap str Z)) d o items :
  h !! d = Some o →
  foldl (λ h kv, setitem h d kv.1 kv.2) h items
  = <[d := foldl (λ o kv, <[kv.1 := kv.2]> o) o items]> h.
Proof.
  revert h o. induction items as [|[k v] items IH]; intros h o Hd; simpl.
  - by rewrite insert_id.
  - rewrite (setitem_allocated h d o k v Hd).
    rewrite (IH _ (<[k := v]> o)) by apply lookup_insert_eq.
    by rewrite insert_insert_eq.
Qed.

Lemma foldl_insert_other (o : gmap str Z) items k :
  k ∉ items.*1 → foldl (λ o kv, <[kv.1 := kv.2]> o) o items !! k = o !! k.
Proof.
  revert o. induction items as [|[k' v'] items IH]; intros o Hk; simpl;
    [done|].
  rewrite fmap_cons in Hk. apply not_elem_of_cons in Hk as [Hne Hk].
  rewrite (IH _ Hk). by apply lookup_insert_ne.
Qed.

Lemma foldl_insert_item (o : gmap str Z) items k v :
  NoDup items.*1 → (k, v) ∈ items →
  foldl (λ o kv, <[kv.1 := kv.2]> o) o items !! k = Some v.
Proof.
  revert o. induction items as [|[k' v'] items IH]; intros o Hnd Hin; simpl.
  - by apply elem_of_nil in Hin.
  - rewrite fmap_cons in Hnd. apply NoDup_cons in Hnd as [Hk' Hnd].
    apply elem_of_cons in Hin as [[= -> ->]|Hin]; [|by apply IH].
    rewrite (foldl_insert_other _ items k' Hk'). apply lookup_insert_eq.
Qed.

Lemma month_assignments_NoDup : NoDup month_assignments.*1.
Proof. apply (bool_decide_unpack _). vm_compute. exact I. Qed.

(** X20: The class body of [DateParserZH_TW] does not make a month table of
    its own: its [month_to_int] is the dict object of
    [DateParser.month_to_int], and after the class body that object maps
    each of the 27 Chinese and pinyin month names to its number, every
    other name as before; no other dict is touched. *)
Theorem month_to_int_shared (DateParser_month_to_int : ref) (h : heap) base :
  h !! DateParser_month_to_int = Some base →
  let zh := (month_to_int DateParser_month_to_int h).1 in
  let h' := (month_to_int DateParser_month_to_int h).2 in
  zh = DateParser_month_to_int ∧
  ∃ d, h' !! DateParser_month_to_int = Some d ∧
       (∀ k v, (k, v) ∈ month_assignments → d !! k = Some v) ∧
       (∀ k, k ∉ month_assignments.*1 → d !! k = base !! k) ∧
       ∀ r, r ≠ DateParser_month_to_int → h' !! r = h !! r.
Proof.
  intros Hbase. cbn zeta. unfold month_to_int. cbn [fst snd].
  split; [done|].
  rewrite (foldl_setitem h _ base month_assignments Hbase).
  eexists. split; [apply lookup_insert_eq|]. split; [|split].
  - intros k v Hin.
    by apply foldl_insert_item; [apply month_assignments_NoDup|].
  - intros k Hk. by apply foldl_insert_other.
  - intros r Hr. by apply lookup_insert_ne.
Qed.

Lemma month_to_int_shared_witness :
  ∃ d, (month_to_int 0%nat {[0%nat := {[lit "jan" := 1%Z]}]}).2 !! 0%nat
       = Some d ∧
       d !! u "正" = Some 1%Z ∧ d !! u "十二" = Some 12%Z ∧
       d !! lit "jan" = Some 1%Z.
Proof.
  destruct (month_to_int_shared 0%nat {[0%nat := {[lit "jan" := 1%Z]}]}
              {[lit "jan" := 1%Z]} (lookup_singleton_eq _ _))
    as (_ & d & Hd & Hitems & Hother & _).
  exists d. split; [exact Hd|]. split; [|split].
  - apply Hitems. apply (bool_decide_unpack _). vm_compute. exact I.
  - apply Hitems. apply (bool_decide_unpack _). vm_compute. exact I.
  - rewrite Hother; [apply lookup_singleton_eq|].
    apply (bool_decide_unpack _). vm_compute. exact I.
Defined.

(** *** The display *)

Section Display.

Variable Date : DateClass.
Context {dateval newyear : Type} `{EqDecision dateval}.
Variable EMPTY : dateval.
Variable display_cal : Z → dateval → result str.
Variable format_extras : Z → newyear → result str.

(** X21: [display] looks the quality up in [self._qual_str] before
    anything else: a date whose quality is not an index of that tuple
    raises [IndexError] whatever else it holds, also when it is text
    only or empty; with a quality that is an index of it, a text-only
    date displays as its text, and a date that is not text only and has
    the empty start value displays as the empty string, without any call
    of the calendar displays. The tuple is the one the instance holds if
    it holds one, and the four-entry tuple of the class otherwise. *)
Theorem display_quality_first (self : DateDisplayInstance)
    (date : DateInstance) :
  let displayed := display Date EMPTY display_cal format_extras self date in
  let n := Z.of_nat (length (self_qual_str self)) in
  (own_qual_str self = None → n = 4%Z) ∧
  (∀ t, own_qual_str self = Some t → n = Z.of_nat (length t)) ∧
  (¬ (- n ≤ get_quality date < n)%Z → displayed = Raise IndexError) ∧
  ((- n ≤ get_quality date < n)%Z →
   get_modifier date = MOD_TEXTONLY Date →
   displayed = Ok (get_text date)) ∧
  ((- n ≤ get_quality date < n)%Z →
   get_modifier date ≠ MOD_TEXTONLY Date →
   get_start_date date = EMPTY →
   displayed = Ok []).
Proof.
  cbn zeta. unfold display.
  split; [by unfold self_qual_str; intros ->|].
  split; [by unfold self_qual_str; intros t ->|].
  split; [|split].
  - intros Hq. by rewrite (getitem_out_of_range (self_qual_str self)).
  - intros Hq Hmod.
    destruct (getitem_in_range (self_qual_str self) (get_quality date) Hq)
      as [x ->].
    cbn [mbind result_bind bind]. by rewrite bool_decide_eq_true_2.
  - intros Hq Hmod Hstart.
    destruct (getitem_in_range (self_qual_str self) (get_quality date) Hq)
      as [x ->].
    cbn [mbind result_bind bind].
    rewrite bool_decide_eq_false_2 by done.
    by rewrite bool_decide_eq_true_2.
Qed.

End Display.

(** A text-only date of quality 3: an instance that holds a tuple of
    three entries raises, one that holds none displays the text. *)
Example display_quality_3 :
  let Date := {| MOD_BEFORE := 1; MOD_AFTER := 2; MOD_ABOUT := 3;
                 MOD_RANGE := 4; MOD_SPAN := 5; MOD_TEXTONLY := 6;
                 CAL_GREGORIAN := 0; CAL_JULIAN := 1; CAL_HEBREW := 2;
                 CAL_FRENCH := 3; CAL_PERSIAN := 4; CAL_ISLAMIC := 5;
                 CAL_SWEDISH := 6;
                 QUAL_ESTIMATED := 1; QUAL_CALCULATED := 2 |} in
  let date := {| get_modifier := 6; get_calendar := 0; get_quality := 3;
                 get_start_date := 0%nat; get_stop_date := 0%nat;
                 get_new_year := (); get_text := lit "once" |} in
  let cal := λ (_ : Z) (_ : nat), Ok (lit "1900") in
  let extras := λ (_ : Z) (_ : unit), Ok (lit "") in
  display Date 0%nat cal extras
          {| own_qual_str := Some [u ""; u "據估計 "; u "據計算 "];
             own_mod_str := None |} date
  = Raise IndexError ∧
  display Date 0%nat cal extras
          {| own_qual_str := None; own_mod_str := None |} date
  = Ok (lit "once").
Proof. split; vm_compute; reflexivity. Qed.
